(** * The Naim device client and media-player entity

    A shallow embedding of [uc_intg_naim/client.py] (class [NaimClient]) and
    of the status refresh of [uc_intg_naim/media_player.py]
    (class [NaimMediaPlayer]), with the properties their specification
    states about them.

    - Python values that come out of a JSON body are the type [value];
      a JSON object is a [gmap string value].  JSON numbers are integers
      here (floating point is outside the model) and strings are byte
      strings (ASCII case mapping and ASCII digits only).
    - A Python call that may raise returns a [result]; a method of an
      object is a state-passing function that threads the object and the
      network through, and a raised exception keeps the mutations made
      before it, as in Python.
    - The device is the other end of the network: an arbitrary state
      machine [respond] answering each HTTP request.  Every request that
      really leaves the client is appended to a log. *)

From stdpp Require Import gmap strings list.
From Stdlib Require Import ZArith DecimalString Ascii String.

Set Warnings "-register-all".
Local Open Scope string_scope.

(** ** Python values and the builtins the client uses *)

Module Py.

Inductive exn : Type :=
| ValueError
| TypeError
| AttributeError
| KeyError
| IndexError.

Inductive result (A : Type) : Type :=
| Ok (a : A)
| Raise (e : exn).
Arguments Ok {A} a.
Arguments Raise {A} e.

Inductive value : Type :=
| VNone
| VBool (b : bool)
| VInt (z : Z)
| VStr (s : string)
| VList (l : list value)
| VDict (d : gmap string value).

(** [bool(v)], the truth value of [v] in an [if]. *)
Definition truthy (v : value) : bool :=
  match v with
  | VNone => false
  | VBool b => b
  | VInt z => negb (z =? 0)%Z
  | VStr s => negb (String.eqb s "")
  | VList l => match l with [] => false | _ :: _ => true end
  | VDict d => match map_to_list d with [] => false | _ :: _ => true end
  end.

(** [v is not None]. *)
Definition is_not_none (v : value) : bool :=
  match v with
  | VNone => false
  | _ => true
  end.

(** [v == s] for a string literal [s]: only an equal string is equal. *)
Definition eq_str (v : value) (s : string) : bool :=
  match v with
  | VStr t => String.eqb t s
  | _ => false
  end.

(** *** Strings *)

Fixpoint startswith (p s : string) : bool :=
  match p, s with
  | EmptyString, _ => true
  | String a p', String b s' => Ascii.eqb a b && startswith p' s'
  | String _ _, EmptyString => false
  end.

(** [p in s] for two strings. *)
Fixpoint str_in (p s : string) : bool :=
  startswith p s ||
  match s with
  | EmptyString => false
  | String _ s' => str_in p s'
  end.

Fixpoint endswith (suf s : string) : bool :=
  String.eqb s suf ||
  match s with
  | EmptyString => false
  | String _ s' => endswith suf s'
  end.

Definition lower_ascii (c : ascii) : ascii :=
  let n := N_of_ascii c in
  if (65 <=? n)%N && (n <=? 90)%N then ascii_of_N (n + 32) else c.

Fixpoint lower (s : string) : string :=
  match s with
  | EmptyString => EmptyString
  | String c s' => String (lower_ascii c) (lower s')
  end.

Definition upper_ascii (c : ascii) : ascii :=
  let n := N_of_ascii c in
  if (97 <=? n)%N && (n <=? 122)%N then ascii_of_N (n - 32) else c.

Fixpoint upper (s : string) : string :=
  match s with
  | EmptyString => EmptyString
  | String c s' => String (upper_ascii c) (upper s')
  end.

(** [s.replace(" ", "")]. *)
Fixpoint remove_spaces (s : string) : string :=
  match s with
  | EmptyString => EmptyString
  | String c s' =>
      if Ascii.eqb c " " then remove_spaces s' else String c (remove_spaces s')
  end.

(** [s.split(sep)] for a one-character separator: never empty. *)
Fixpoint split (sep : ascii) (s : string) : list string :=
  match s with
  | EmptyString => [EmptyString]
  | String c s' =>
      if Ascii.eqb c sep then EmptyString :: split sep s'
      else match split sep s' with
           | h :: t => String c h :: t
           | [] => [String c EmptyString]
           end
  end.

(** [parts[-1]]. *)
Definition last_item (parts : list string) : string :=
  List.last parts EmptyString.

(** [sep.join(parts)]. *)
Fixpoint join (sep : string) (parts : list string) : string :=
  match parts with
  | [] => EmptyString
  | [p] => p
  | p :: rest => p ++ sep ++ join sep rest
  end.

(** [f"{n}"] for an [int]. *)
Definition format_int (n : Z) : string :=
  NilZero.string_of_int (Z.to_int n).

(** *** [int(v)] *)

Definition is_space (c : ascii) : bool :=
  let n := N_of_ascii c in
  ((9 <=? n)%N && (n <=? 13)%N) || ((28 <=? n)%N && (n <=? 32)%N).

Fixpoint lstrip (s : string) : string :=
  match s with
  | EmptyString => EmptyString
  | String c s' => if is_space c then lstrip s' else s
  end.

Fixpoint rstrip (s : string) : string :=
  match s with
  | EmptyString => EmptyString
  | String c s' =>
      let r := rstrip s' in
      if is_space c && String.eqb r "" then EmptyString else String c r
  end.

Definition digit_of (c : ascii) : option Z :=
  let n := N_of_ascii c in
  if (48 <=? n)%N && (n <=? 57)%N then Some (Z.of_N (n - 48)) else None.

(** Decimal digits, single underscores allowed between two digits. *)
Fixpoint parse_digits (acc : Z) (after_digit : bool) (s : string) : option Z :=
  match s with
  | EmptyString => if after_digit then Some acc else None
  | String c s' =>
      match digit_of c with
      | Some d => parse_digits (10 * acc + d) true s'
      | None =>
          if Ascii.eqb c "_" && after_digit then parse_digits acc false s'
          else None
      end
  end.

(** [int(s)] for a string: surrounding white space, an optional sign,
    then the digits.  [None] is Python's [ValueError]. *)
Definition parse_int (s : string) : option Z :=
  match rstrip (lstrip s) with
  | String "-" ds => Z.opp <$> parse_digits 0 false ds
  | String "+" ds => parse_digits 0 false ds
  | ds => parse_digits 0 false ds
  end.

Definition int (v : value) : result Z :=
  match v with
  | VInt z => Ok z
  | VBool b => Ok (if b then 1 else 0)%Z
  | VStr s => match parse_int s with Some z => Ok z | None => Raise ValueError end
  | VNone | VList _ | VDict _ => Raise TypeError
  end.

(** [str(v)].  The text of a list or of a dict is its [repr], which
    starts with a bracket; its elements are elided here. *)
Definition str (v : value) : string :=
  match v with
  | VNone => "None"
  | VBool true => "True"
  | VBool false => "False"
  | VInt z => format_int z
  | VStr s => s
  | VList [] => "[]"
  | VList (_ :: _) => "[...]"
  | VDict d => match map_to_list d with [] => "{}" | _ :: _ => "{...}" end
  end.

(** Whether a call returned. *)
Definition is_ok {A} (r : result A) : bool :=
  match r with
  | Ok _ => true
  | Raise _ => false
  end.

(** *** Dictionaries and containers *)

(** [d.get(k, default)] on a dict. *)
Definition dget (d : gmap string value) (k : string) (dflt : value) : value :=
  default dflt (d !! k).

(** [v.get(k, default)] on a value of any type: only a dict has [get]. *)
Definition get (v : value) (k : string) (dflt : value) : result value :=
  match v with
  | VDict d => Ok (dget d k dflt)
  | _ => Raise AttributeError
  end.

(** [k in v] for a string [k]. *)
Definition contains (k : string) (v : value) : result bool :=
  match v with
  | VDict d => Ok (bool_decide (is_Some (d !! k)))
  | VStr s => Ok (str_in k s)
  | VList l => Ok (existsb (fun x => eq_str x k) l)
  | VNone | VBool _ | VInt _ => Raise TypeError
  end.

(** [v[k]] for a string [k]. *)
Definition getitem (v : value) (k : string) : result value :=
  match v with
  | VDict d => match d !! k with Some x => Ok x | None => Raise KeyError end
  | _ => Raise TypeError
  end.

(** [len(v)]. *)
Definition len (v : value) : result nat :=
  match v with
  | VStr s => Ok (String.length s)
  | VList l => Ok (List.length l)
  | VDict d => Ok (size d)
  | VNone | VBool _ | VInt _ => Raise TypeError
  end.

(** [v.lower()]: only a string has [lower]. *)
Definition str_lower (v : value) : result string :=
  match v with
  | VStr s => Ok (lower s)
  | _ => Raise AttributeError
  end.

(** The items a [for] loop over [v] visits.  A dict yields its keys. *)
Definition iter (v : value) : result (list value) :=
  match v with
  | VList l => Ok l
  | VStr s => Ok (VStr <$> ((fun c => String c EmptyString) <$> list_ascii_of_string s))
  | VDict d => Ok (VStr <$> (map_to_list d).*1)
  | VNone | VBool _ | VInt _ => Raise TypeError
  end.

End Py.

(** ** [urllib.parse.urljoin]

    The standard-library function the client builds every request URL
    with, after CPython's [urlsplit], [urlunsplit] and [urljoin].
    Parameters introduced by a semicolon stay part of the path; the
    stripping of control characters and the check on the brackets of an
    IPv6 host, which no URL of the client exercises, are left out. *)

Module Url.
Import Py.

Record parts : Type := mkParts {
  scheme : string;
  netloc : string;
  path : string;
  query : string;
  fragment : string
}.

Definition is_alpha (c : ascii) : bool :=
  let n := N_of_ascii c in
  ((65 <=? n)%N && (n <=? 90)%N) || ((97 <=? n)%N && (n <=? 122)%N).

Definition is_scheme_char (c : ascii) : bool :=
  let n := N_of_ascii c in
  is_alpha c || ((48 <=? n)%N && (n <=? 57)%N)
  || Ascii.eqb c "+" || Ascii.eqb c "-" || Ascii.eqb c ".".

(** The text before the first character satisfying [stop], and the text
    from that character on (empty when there is none). *)
Fixpoint break_at (stop : ascii -> bool) (s : string) : string * string :=
  match s with
  | EmptyString => (EmptyString, EmptyString)
  | String c s' =>
      if stop c then (EmptyString, s)
      else let '(a, b) := break_at stop s' in (String c a, b)
  end.

(** No character of [s] satisfies [stop]. *)
Fixpoint free_of (stop : ascii -> bool) (s : string) : bool :=
  match s with
  | EmptyString => true
  | String c s' => negb (stop c) && free_of stop s'
  end.

Definition tail (s : string) : string :=
  match s with
  | EmptyString => EmptyString
  | String _ s' => s'
  end.

Definition split_scheme (url dflt : string) : string * string :=
  let '(pre, rest) := break_at (Ascii.eqb ":") url in
  match pre, rest with
  | String c0 _, String _ after =>
      if is_alpha c0 && forallb is_scheme_char (list_ascii_of_string pre)
      then (lower pre, after)
      else (dflt, url)
  | _, _ => (dflt, url)
  end.

Definition is_delim (c : ascii) : bool :=
  Ascii.eqb c "/" || Ascii.eqb c "?" || Ascii.eqb c "#".

Definition urlsplit (url dflt : string) : parts :=
  let '(sch, u1) := split_scheme url dflt in
  let '(nl, u2) :=
    if startswith "//" u1 then break_at is_delim (tail (tail u1))
    else (EmptyString, u1) in
  let '(u3, frag) := break_at (Ascii.eqb "#") u2 in
  let '(pth, qry) := break_at (Ascii.eqb "?") u3 in
  mkParts sch nl pth (tail qry) (tail frag).

Definition uses_relative : list string :=
  [""; "ftp"; "http"; "gopher"; "nntp"; "imap"; "wais"; "file"; "https";
   "shttp"; "mms"; "prospero"; "rtsp"; "rtspu"; "sftp"; "svn"; "svn+ssh";
   "ws"; "wss"].

Definition uses_netloc : list string :=
  [""; "ftp"; "http"; "gopher"; "nntp"; "telnet"; "imap"; "wais"; "file";
   "mms"; "https"; "shttp"; "snews"; "prospero"; "rtsp"; "rtspu"; "rsync";
   "svn"; "svn+ssh"; "sftp"; "nfs"; "git"; "git+ssh"; "ws"; "wss"].

Definition mem (s : string) (l : list string) : bool :=
  existsb (String.eqb s) l.

Definition nonempty (s : string) : bool := negb (String.eqb s "").

Definition urlunsplit (p : parts) : string :=
  let u0 := path p in
  let u1 :=
    if nonempty (netloc p)
       || (nonempty (scheme p) && mem (scheme p) uses_netloc
           && negb (startswith "//" u0))
    then "//" ++ netloc p
         ++ (if nonempty u0 && negb (startswith "/" u0) then "/" ++ u0 else u0)
    else u0 in
  let u2 := if nonempty (scheme p) then scheme p ++ ":" ++ u1 else u1 in
  let u3 := if nonempty (query p) then u2 ++ "?" ++ query p else u2 in
  if nonempty (fragment p) then u3 ++ "#" ++ fragment p else u3.

(** [del parts[-1]] *)
Definition drop_last (l : list string) : list string :=
  List.removelast l.

(** [segments[1:-1] = filter(None, segments[1:-1])] *)
Definition squeeze_middle (segs : list string) : list string :=
  match segs with
  | first :: (_ :: _) as rest =>
      first :: (List.filter nonempty (drop_last rest) ++ [last_item rest])%list
  | _ => segs
  end.

(** The loop over the segments; [acc] is [resolved_path]. *)
Fixpoint resolve (acc : list string) (segs : list string) : list string :=
  match segs with
  | [] => acc
  | seg :: rest =>
      if String.eqb seg ".." then resolve (drop_last acc) rest
      else if String.eqb seg "." then resolve acc rest
      else resolve (acc ++ [seg])%list rest
  end.

(** The path made of [segments]: dot segments resolved, a slash when
    nothing is left. *)
Definition resolved_path (segments : list string) : string :=
  let resolved :=
    (resolve [] segments
     ++ (if String.eqb (last_item segments) "."
            || String.eqb (last_item segments) ".."
         then [EmptyString] else []))%list in
  let joined := join "/" resolved in
  if String.eqb joined "" then "/" else joined.

Definition urljoin (base url : string) : string :=
  if String.eqb base "" then url
  else if String.eqb url "" then base
  else
    let b := urlsplit base "" in
    let u := urlsplit url (scheme b) in
    if negb (String.eqb (scheme u) (scheme b)) || negb (mem (scheme u) uses_relative)
    then url
    else if mem (scheme u) uses_netloc && nonempty (netloc u)
    then urlunsplit u
    else
      let nl := if mem (scheme u) uses_netloc then netloc b else netloc u in
      if String.eqb (path u) ""
      then urlunsplit
             (mkParts (scheme u) nl (path b)
                (if String.eqb (query u) "" then query b else query u)
                (fragment u))
      else
        let base_parts :=
          let bp := split "/" (path b) in
          if nonempty (last_item bp) then drop_last bp else bp in
        let segments :=
          if startswith "/" (path u) then split "/" (path u)
          else squeeze_middle (base_parts ++ split "/" (path u))%list in
        urlunsplit
          (mkParts (scheme u) nl (resolved_path segments) (query u) (fragment u)).

End Url.

(** ** The network: HTTP requests, responses and the device *)

Module Net.
Import Py.

Inductive method : Type := GET | PUT.

Record request : Type := mkRequest {
  req_method : method;
  req_url : string;
  req_json : option value
}.

(** What the client reads of an HTTP response: the status, the content
    type, the body text, and the body as parsed JSON ([None] when
    [response.json()] raises). *)
Record response : Type := mkResponse {
  status : Z;
  content_type : string;
  text : string;
  json : option value
}.

(** [session.request] either raises (connection refused, timeout, ...)
    or yields a response. *)
Inductive outcome : Type :=
| Failed
| Response (r : response).

(** The device answers a request knowing every request sent before it. *)
Definition device : Type := list request -> request -> outcome.

(** A computation of a method of an object of type [S]: it reads and
    updates the object and the log of requests sent so far, and returns
    a value or raises. *)
Definition io (S A : Type) : Type := S -> list request -> result A * S * list request.

Definition ret {S A} (a : A) : io S A :=
  fun self sent => (Ok a, self, sent).

Definition bind {S A B} (m : io S A) (k : A -> io S B) : io S B :=
  fun self sent =>
    match m self sent with
    | (Ok a, self', sent') => k a self' sent'
    | (Raise e, self', sent') => (Raise e, self', sent')
    end.

(** A pure Python expression that may raise. *)
Definition lift {S A} (r : result A) : io S A :=
  fun self sent => (r, self, sent).

(** [self.field = ...] *)
Definition modify {S} (f : S -> S) : io S unit :=
  fun self sent => (Ok tt, f self, sent).

(** [self.field] *)
Definition read {S A} (f : S -> A) : io S A :=
  fun self sent => (Ok (f self), self, sent).

(** [try: m  except Exception: h] *)
Definition try_except {S A} (m : io S A) (h : io S A) : io S A :=
  fun self sent =>
    match m self sent with
    | (Raise _, self', sent') => h self' sent'
    | r => r
    end.

(** Sequencing of two pure expressions that may raise. *)
Definition and_then {A B} (r : result A) (k : A -> result B) : result B :=
  match r with
  | Ok a => k a
  | Raise e => Raise e
  end.

End Net.

Notation "x <- m ;; k" := (Net.bind m (fun x => k))
  (at level 62, m at next level, right associativity).
Notation "m ;;; k" := (Net.bind m (fun _ => k))
  (at level 62, right associativity).

(** ** [uc_intg_naim/client.py]: class [NaimClient] *)

Module Client.
Import Py Url Net.

Record NaimClient : Type := mkClient {
  host : string;
  port : Z;
  base_url : string;
  _session : bool;            (* [self._session is not None] *)
  _websocket : bool;          (* [self._websocket is not None] *)
  _ws_task : bool;            (* [self._ws_task is not None] *)
  _is_connected : bool;
  _available_inputs : value;
  _device_info : value;
  api_base : string
}.

(** [NaimClient.__init__] *)
Definition init (host : string) (port : Z) : NaimClient :=
  let base := "http://" ++ host ++ ":" ++ format_int port in
  {| host := host; port := port; base_url := base;
     _session := false; _websocket := false; _ws_task := false;
     _is_connected := false;
     _available_inputs := VList [];
     _device_info := VDict ∅;
     api_base := base |}.

Definition set_session (b : bool) (c : NaimClient) : NaimClient :=
  {| host := host c; port := port c; base_url := base_url c;
     _session := b; _websocket := _websocket c; _ws_task := _ws_task c;
     _is_connected := _is_connected c;
     _available_inputs := _available_inputs c;
     _device_info := _device_info c; api_base := api_base c |}.

Definition set_websocket (b : bool) (c : NaimClient) : NaimClient :=
  {| host := host c; port := port c; base_url := base_url c;
     _session := _session c; _websocket := b; _ws_task := _ws_task c;
     _is_connected := _is_connected c;
     _available_inputs := _available_inputs c;
     _device_info := _device_info c; api_base := api_base c |}.

Definition set_ws_task (b : bool) (c : NaimClient) : NaimClient :=
  {| host := host c; port := port c; base_url := base_url c;
     _session := _session c; _websocket := _websocket c; _ws_task := b;
     _is_connected := _is_connected c;
     _available_inputs := _available_inputs c;
     _device_info := _device_info c; api_base := api_base c |}.

Definition set_is_connected (b : bool) (c : NaimClient) : NaimClient :=
  {| host := host c; port := port c; base_url := base_url c;
     _session := _session c; _websocket := _websocket c; _ws_task := _ws_task c;
     _is_connected := b;
     _available_inputs := _available_inputs c;
     _device_info := _device_info c; api_base := api_base c |}.

Definition set_available_inputs (v : value) (c : NaimClient) : NaimClient :=
  {| host := host c; port := port c; base_url := base_url c;
     _session := _session c; _websocket := _websocket c; _ws_task := _ws_task c;
     _is_connected := _is_connected c;
     _available_inputs := v;
     _device_info := _device_info c; api_base := api_base c |}.

Definition set_device_info (v : value) (c : NaimClient) : NaimClient :=
  {| host := host c; port := port c; base_url := base_url c;
     _session := _session c; _websocket := _websocket c; _ws_task := _ws_task c;
     _is_connected := _is_connected c;
     _available_inputs := _available_inputs c;
     _device_info := v; api_base := api_base c |}.

Definition set_api_base (s : string) (c : NaimClient) : NaimClient :=
  {| host := host c; port := port c; base_url := base_url c;
     _session := _session c; _websocket := _websocket c; _ws_task := _ws_task c;
     _is_connected := _is_connected c;
     _available_inputs := _available_inputs c;
     _device_info := _device_info c; api_base := s |}.

Section Device.

Variable dev : device.

(** [NaimClient._request]: without a session nothing is sent; otherwise
    the request goes to [urljoin(self.api_base, endpoint)] and anything
    but a 200 answer that can be read comes back as [None]. *)
Definition _request (m : method) (endpoint : string) (json_data : option value)
  : io NaimClient value :=
  fun self sent =>
    if negb (_session self) then (Ok VNone, self, sent)
    else
      let url := urljoin (api_base self) endpoint in
      let req := mkRequest m url json_data in
      let sent' := (sent ++ [req])%list in
      match dev sent req with
      | Failed => (Ok VNone, self, sent')
      | Response r =>
          if (status r =? 200)%Z then
            if String.eqb (content_type r) "application/json" then
              match json r with
              | Some result => (Ok result, self, sent')
              | None => (Ok VNone, self, sent')
              end
            else if str_in "refresh" (lower (text r)) && str_in "naim" (lower (text r))
            then (Ok (VDict (<["raw_response" := VStr (text r)]>
                              (<["status_code" := VInt (status r)]> ∅))),
                  self, sent')
            else (Ok (VDict (<["response" := VStr (text r)]> ∅)), self, sent')
          else (Ok VNone, self, sent')
      end.

(** The [for endpoint in test_endpoints] loop of [connect]: [true] when
    it left through [break]. *)
Fixpoint probe_endpoints (endpoints : list string) : io NaimClient bool :=
  match endpoints with
  | [] => ret false
  | endpoint :: rest =>
      test_data <- _request GET endpoint None ;;
      if truthy test_data then ret true else probe_endpoints rest
  end.

(** [isinstance(root_data, dict) and "raw_response" in root_data], then
    the test of the marker in [root_data["raw_response"]]. *)
Definition prefix_marker (root_data : value) : result bool :=
  match root_data with
  | VDict d =>
      match d !! "raw_response" with
      | Some response_text =>
          and_then (contains "naim/index.fcgi" response_text) (fun a =>
          if a then Ok true else contains "naim/" response_text)
      | None => Ok false
      end
  | _ => Ok false
  end.

(** [NaimClient.connect] *)
Definition connect : io NaimClient bool :=
  try_except
    (has_session <- read _session ;;
     (if has_session then ret tt else modify (set_session true)) ;;;
     root_data <- _request GET "/" None ;;
     if negb (truthy root_data) then ret false
     else
       api_prefix_detected <- lift (prefix_marker root_data) ;;
       (if api_prefix_detected then
          base <- read base_url ;;
          modify (set_api_base (base ++ "/naim")) ;;;
          confirmed <- probe_endpoints ["/nowplaying"; "/system"; "/inputs"] ;;
          if confirmed then ret tt else modify (set_api_base base)
        else ret tt) ;;;
       system_info <- _request GET "/system" None ;;
       (if truthy system_info then
          modify (set_device_info system_info) ;;;
          model <- lift (get system_info "model" (VStr "Unknown")) ;;
          h <- read host ;;
          hostname <- lift (get system_info "hostname"
                              (VStr ("Naim Device (" ++ h ++ ")"))) ;;
          ret tt
        else ret tt) ;;;
       inputs_data <- _request GET "/inputs" None ;;
       has_children <-
         (if truthy inputs_data then lift (contains "children" inputs_data)
          else ret false) ;;
       (if has_children then
          children <- lift (getitem inputs_data "children") ;;
          modify (set_available_inputs children) ;;;
          n <- lift (len children) ;;
          ret tt
        else modify (set_available_inputs (VList []))) ;;;
       modify (set_is_connected true) ;;;
       ret true)
    (ret false).

(** [NaimClient.disconnect] *)
Definition disconnect : io NaimClient unit :=
  modify (set_is_connected false) ;;;
  modify (set_ws_task false) ;;;
  modify (set_websocket false) ;;;
  modify (set_session false).

(** [NaimClient.get_status] *)
Definition get_status : io NaimClient value :=
  _request GET "/nowplaying" None.

(** [NaimClient.get_system_info] *)
Definition get_system_info : io NaimClient value :=
  info <- read _device_info ;;
  if truthy info then ret info else _request GET "/system" None.

(** [NaimClient.get_power_state] *)
Definition get_power_state : io NaimClient (option bool) :=
  power_info <- _request GET "/power" None ;;
  if truthy power_info then
    state <- lift (and_then (get power_info "state" (VStr "")) str_lower) ;;
    system <- lift (and_then (get power_info "system" (VStr "")) str_lower) ;;
    ret (Some (String.eqb state "on" || String.eqb system "on"))
  else ret None.

(** [NaimClient.power_on] *)
Definition power_on : io NaimClient bool :=
  response <- _request PUT "/power?system=on" None ;;
  ret (is_not_none response).

(** [NaimClient.power_off] *)
Definition power_off : io NaimClient bool :=
  response <- _request PUT "/power?system=lona" None ;;
  ret (is_not_none response).

(** [NaimClient.get_volume] *)
Definition get_volume : io NaimClient value :=
  _request GET "/levels/room" None.

(** [NaimClient.set_volume] *)
Definition set_volume (volume : Z) : io NaimClient bool :=
  if negb ((0 <=? volume)%Z && (volume <=? 100)%Z) then ret false
  else
    response <- _request PUT ("/levels/room?volume=" ++ format_int volume) None ;;
    ret (is_not_none response).

(** [NaimClient.volume_up] *)
Definition volume_up (step : Z) : io NaimClient bool :=
  volume_info <- get_volume ;;
  has_volume <-
    (if truthy volume_info then lift (contains "volume" volume_info)
     else ret false) ;;
  if has_volume then
    current_volume <- lift (and_then (getitem volume_info "volume") int) ;;
    let new_volume := Z.min 100 (current_volume + step) in
    set_volume new_volume
  else ret false.

(** [NaimClient.volume_down] *)
Definition volume_down (step : Z) : io NaimClient bool :=
  volume_info <- get_volume ;;
  has_volume <-
    (if truthy volume_info then lift (contains "volume" volume_info)
     else ret false) ;;
  if has_volume then
    current_volume <- lift (and_then (getitem volume_info "volume") int) ;;
    let new_volume := Z.max 0 (current_volume - step) in
    set_volume new_volume
  else ret false.

(** [NaimClient.mute] *)
Definition mute : io NaimClient bool :=
  response <- _request PUT "/levels/room?mute=1" None ;;
  ret (is_not_none response).

(** [NaimClient.unmute] *)
Definition unmute : io NaimClient bool :=
  response <- _request PUT "/levels/room?mute=0" None ;;
  ret (is_not_none response).

(** The test of [set_source] that an input is the requested source. *)
Definition input_matches (source : string) (input_info : value) : result bool :=
  and_then (get input_info "ussi" (VStr "")) (fun ussi =>
  if eq_str ussi ("inputs/" ++ source) then Ok true
  else
    match ussi with
    | VStr u =>
        if endswith ("/" ++ source) u then Ok true
        else
          and_then (get input_info "name" (VStr "")) (fun name =>
          and_then (str_lower name) (fun name_lower =>
          Ok (String.eqb (remove_spaces name_lower) (lower source))))
    | _ => Raise AttributeError
    end).

(** The endpoint of the select command. *)
Definition select_endpoint (source : string) : string :=
  "/inputs/" ++ source ++ "?cmd=select".

(** The [for input_info in self._available_inputs] loop of [set_source]
    and the code after it. *)
Fixpoint set_source_loop (source : string) (inputs : list value) : io NaimClient bool :=
  match inputs with
  | [] =>
      response <- _request GET (select_endpoint source) None ;;
      ret (is_not_none response)
  | input_info :: rest =>
      is_match <- lift (input_matches source input_info) ;;
      if is_match then
        selectable <- lift (get input_info "selectable" VNone) ;;
        if eq_str selectable "1" then
          response <- _request GET (select_endpoint source) None ;;
          ret (is_not_none response)
        else ret false
      else set_source_loop source rest
  end.

(** [NaimClient.set_source] *)
Definition set_source (source : string) : io NaimClient bool :=
  available <- read _available_inputs ;;
  inputs <- lift (iter available) ;;
  set_source_loop source inputs.

(** [NaimClient.play] *)
Definition play : io NaimClient bool :=
  response <- _request GET "/nowplaying?cmd=play" None ;;
  ret (is_not_none response).

(** [NaimClient.pause] *)
Definition pause : io NaimClient bool :=
  response <- _request GET "/nowplaying?cmd=pause" None ;;
  ret (is_not_none response).

(** [NaimClient.stop] *)
Definition stop : io NaimClient bool :=
  response <- _request GET "/nowplaying?cmd=stop" None ;;
  ret (is_not_none response).

(** [NaimClient.next_track] *)
Definition next_track : io NaimClient bool :=
  response <- _request GET "/nowplaying?cmd=next" None ;;
  ret (is_not_none response).

(** [NaimClient.previous_track] *)
Definition previous_track : io NaimClient bool :=
  response <- _request GET "/nowplaying?cmd=prev" None ;;
  ret (is_not_none response).

(** [NaimClient.seek] *)
Definition seek (position : Z) : io NaimClient bool :=
  ret false.

(** The [repeat_values] table of [set_repeat]. *)
Definition repeat_values : gmap string string :=
  <["OFF" := "0"]> (<["ONE" := "1"]> (<["ALL" := "2"]> ∅)).

(** [NaimClient.set_repeat] *)
Definition set_repeat (mode : string) : io NaimClient bool :=
  let repeat_value := default "0" (repeat_values !! upper mode) in
  response <- _request PUT ("/nowplaying?repeat=" ++ repeat_value) None ;;
  ret (is_not_none response).

(** [NaimClient.set_shuffle] *)
Definition set_shuffle (enabled : bool) : io NaimClient bool :=
  let shuffle_value := if enabled then "1" else "0" in
  response <- _request PUT ("/nowplaying?shuffle=" ++ shuffle_value) None ;;
  ret (is_not_none response).

(** [NaimClient.set_balance] *)
Definition set_balance (balance : Z) : io NaimClient bool :=
  ret false.

End Device.

(** [NaimClient._transport_state_to_play_state] *)
Definition state_map : gmap string string :=
  <["0" := "stopped"]> (<["1" := "paused"]>
    (<["2" := "playing"]> (<["3" := "buffering"]> ∅))).

Definition _transport_state_to_play_state (transport_state : value) : string :=
  default "unknown" (state_map !! str transport_state).

(** The test ["/" in source_ussi] and the split of [_normalize_status]. *)
Definition source_id_of (source_ussi : value) : result value :=
  and_then (contains "/" source_ussi) (fun has_slash =>
  if has_slash then
    match source_ussi with
    | VStr s => Ok (VStr (last_item (split "/" s)))
    | _ => Raise AttributeError
    end
  else Ok source_ussi).

(** [NaimClient._normalize_status] *)
Definition _normalize_status (status : gmap string value) : result (gmap string value) :=
  if negb (truthy (VDict status)) then Ok ∅
  else
    let transport_state := dget status "transportState" (VStr "0") in
    let play_state := _transport_state_to_play_state transport_state in
    let source_ussi := dget status "source" (VStr "") in
    and_then (source_id_of source_ussi) (fun source_id =>
    and_then (int (dget status "transportPosition" (VInt 0))) (fun position =>
    Ok (<["state" := VStr play_state]>
       (<["source" := source_id]>
       (<["source_ussi" := source_ussi]>
       (<["position" := VInt position]>
       (<["duration" := VInt 0]>
       (<["title" := dget status "title" (VStr "")]>
       (<["artist" := dget status "artist" (VStr "")]>
       (<["album" := dget status "album" (VStr "")]>
       (<["artwork" := dget status "artwork" (VStr "")]>
       (<["station" := dget status "station" (VStr "")]>
       (<["live" := VBool (eq_str (dget status "live" (VStr "0")) "1")]>
       (<["can_resume" := VBool (eq_str (dget status "canResume" (VStr "0")) "1")]>
       (<["repeat" := VBool (eq_str (dget status "repeat" (VStr "0")) "1")]>
       (<["shuffle" := VBool (eq_str (dget status "shuffle" (VStr "0")) "1")]>
       (<["bit_depth" := dget status "bitDepth" (VStr "")]>
       (<["bit_rate" := dget status "bitRate" (VStr "")]>
       (<["sample_rate" := dget status "sampleRate" (VStr "")]>
       (<["codec" := dget status "codec" (VStr "")]>
       (<["genre" := dget status "genre" (VStr "")]> ∅))))))))))))))))))))).

End Client.


(** ** [uc_intg_naim/media_player.py]: the status refresh of [NaimMediaPlayer] *)

Module MediaPlayer.
Import Py Net Client.

(** [ucapi.media_player.States] *)
Module States.
Inductive t : Type :=
| UNAVAILABLE | UNKNOWN | ON | OFF | PLAYING | PAUSED | STANDBY | BUFFERING.
End States.

(** [ucapi.media_player.RepeatMode] *)
Module RepeatMode.
Inductive t : Type := OFF | ALL | ONE.
End RepeatMode.

Record NaimMediaPlayer : Type := mkPlayer {
  _client : NaimClient;
  _attr_state : States.t;
  _attr_volume : Z;
  _attr_muted : bool;
  _attr_media_position : Z;
  _attr_media_duration : Z;
  _attr_media_title : value;
  _attr_media_artist : value;
  _attr_media_album : value;
  _attr_media_image_url : value;
  _attr_source : value;
  _attr_repeat : RepeatMode.t;
  _attr_shuffle : bool;
  _last_status : value;
  _connected : bool
}.

Definition set_client (x : NaimClient) (p : NaimMediaPlayer) : NaimMediaPlayer :=
  {| _client := x;
     _attr_state := _attr_state p;
     _attr_volume := _attr_volume p;
     _attr_muted := _attr_muted p;
     _attr_media_position := _attr_media_position p;
     _attr_media_duration := _attr_media_duration p;
     _attr_media_title := _attr_media_title p;
     _attr_media_artist := _attr_media_artist p;
     _attr_media_album := _attr_media_album p;
     _attr_media_image_url := _attr_media_image_url p;
     _attr_source := _attr_source p;
     _attr_repeat := _attr_repeat p;
     _attr_shuffle := _attr_shuffle p;
     _last_status := _last_status p;
     _connected := _connected p |}.

Definition set_attr_state (x : States.t) (p : NaimMediaPlayer) : NaimMediaPlayer :=
  {| _client := _client p;
     _attr_state := x;
     _attr_volume := _attr_volume p;
     _attr_muted := _attr_muted p;
     _attr_media_position := _attr_media_position p;
     _attr_media_duration := _attr_media_duration p;
     _attr_media_title := _attr_media_title p;
     _attr_media_artist := _attr_media_artist p;
     _attr_media_album := _attr_media_album p;
     _attr_media_image_url := _attr_media_image_url p;
     _attr_source := _attr_source p;
     _attr_repeat := _attr_repeat p;
     _attr_shuffle := _attr_shuffle p;
     _last_status := _last_status p;
     _connected := _connected p |}.

Definition set_attr_volume (x : Z) (p : NaimMediaPlayer) : NaimMediaPlayer :=
  {| _client := _client p;
     _attr_state := _attr_state p;
     _attr_volume := x;
     _attr_muted := _attr_muted p;
     _attr_media_position := _attr_media_position p;
     _attr_media_duration := _attr_media_duration p;
     _attr_media_title := _attr_media_title p;
     _attr_media_artist := _attr_media_artist p;
     _attr_media_album := _attr_media_album p;
     _attr_media_image_url := _attr_media_image_url p;
     _attr_source := _attr_source p;
     _attr_repeat := _attr_repeat p;
     _attr_shuffle := _attr_shuffle p;
     _last_status := _last_status p;
     _connected := _connected p |}.

Definition set_attr_muted (x : bool) (p : NaimMediaPlayer) : NaimMediaPlayer :=
  {| _client := _client p;
     _attr_state := _attr_state p;
     _attr_volume := _attr_volume p;
     _attr_muted := x;
     _attr_media_position := _attr_media_position p;
     _attr_media_duration := _attr_media_duration p;
     _attr_media_title := _attr_media_title p;
     _attr_media_artist := _attr_media_artist p;
     _attr_media_album := _attr_media_album p;
     _attr_media_image_url := _attr_media_image_url p;
     _attr_source := _attr_source p;
     _attr_repeat := _attr_repeat p;
     _attr_shuffle := _attr_shuffle p;
     _last_status := _last_status p;
     _connected := _connected p |}.

Definition set_attr_media_position (x : Z) (p : NaimMediaPlayer) : NaimMediaPlayer :=
  {| _client := _client p;
     _attr_state := _attr_state p;
     _attr_volume := _attr_volume p;
     _attr_muted := _attr_muted p;
     _attr_media_position := x;
     _attr_media_duration := _attr_media_duration p;
     _attr_media_title := _attr_media_title p;
     _attr_media_artist := _attr_media_artist p;
     _attr_media_album := _attr_media_album p;
     _attr_media_image_url := _attr_media_image_url p;
     _attr_source := _attr_source p;
     _attr_repeat := _attr_repeat p;
     _attr_shuffle := _attr_shuffle p;
     _last_status := _last_status p;
     _connected := _connected p |}.

Definition set_attr_media_duration (x : Z) (p : NaimMediaPlayer) : NaimMediaPlayer :=
  {| _client := _client p;
     _attr_state := _attr_state p;
     _attr_volume := _attr_volume p;
     _attr_muted := _attr_muted p;
     _attr_media_position := _attr_media_position p;
     _attr_media_duration := x;
     _attr_media_title := _attr_media_title p;
     _attr_media_artist := _attr_media_artist p;
     _attr_media_album := _attr_media_album p;
     _attr_media_image_url := _attr_media_image_url p;
     _attr_source := _attr_source p;
     _attr_repeat := _attr_repeat p;
     _attr_shuffle := _attr_shuffle p;
     _last_status := _last_status p;
     _connected := _connected p |}.

Definition set_attr_media_title (x : value) (p : NaimMediaPlayer) : NaimMediaPlayer :=
  {| _client := _client p;
     _attr_state := _attr_state p;
     _attr_volume := _attr_volume p;
     _attr_muted := _attr_muted p;
     _attr_media_position := _attr_media_position p;
     _attr_media_duration := _attr_media_duration p;
     _attr_media_title := x;
     _attr_media_artist := _attr_media_artist p;
     _attr_media_album := _attr_media_album p;
     _attr_media_image_url := _attr_media_image_url p;
     _attr_source := _attr_source p;
     _attr_repeat := _attr_repeat p;
     _attr_shuffle := _attr_shuffle p;
     _last_status := _last_status p;
     _connected := _connected p |}.

Definition set_attr_media_artist (x : value) (p : NaimMediaPlayer) : NaimMediaPlayer :=
  {| _client := _client p;
     _attr_state := _attr_state p;
     _attr_volume := _attr_volume p;
     _attr_muted := _attr_muted p;
     _attr_media_position := _attr_media_position p;
     _attr_media_duration := _attr_media_duration p;
     _attr_media_title := _attr_media_title p;
     _attr_media_artist := x;
     _attr_media_album := _attr_media_album p;
     _attr_media_image_url := _attr_media_image_url p;
     _attr_source := _attr_source p;
     _attr_repeat := _attr_repeat p;
     _attr_shuffle := _attr_shuffle p;
     _last_status := _last_status p;
     _connected := _connected p |}.

Definition set_attr_media_album (x : value) (p : NaimMediaPlayer) : NaimMediaPlayer :=
  {| _client := _client p;
     _attr_state := _attr_state p;
     _attr_volume := _attr_volume p;
     _attr_muted := _attr_muted p;
     _attr_media_position := _attr_media_position p;
     _attr_media_duration := _attr_media_duration p;
     _attr_media_title := _attr_media_title p;
     _attr_media_artist := _attr_media_artist p;
     _attr_media_album := x;
     _attr_media_image_url := _attr_media_image_url p;
     _attr_source := _attr_source p;
     _attr_repeat := _attr_repeat p;
     _attr_shuffle := _attr_shuffle p;
     _last_status := _last_status p;
     _connected := _connected p |}.

Definition set_attr_media_image_url (x : value) (p : NaimMediaPlayer) : NaimMediaPlayer :=
  {| _client := _client p;
     _attr_state := _attr_state p;
     _attr_volume := _attr_volume p;
     _attr_muted := _attr_muted p;
     _attr_media_position := _attr_media_position p;
     _attr_media_duration := _attr_media_duration p;
     _attr_media_title := _attr_media_title p;
     _attr_media_artist := _attr_media_artist p;
     _attr_media_album := _attr_media_album p;
     _attr_media_image_url := x;
     _attr_source := _attr_source p;
     _attr_repeat := _attr_repeat p;
     _attr_shuffle := _attr_shuffle p;
     _last_status := _last_status p;
     _connected := _connected p |}.

Definition set_attr_source (x : value) (p : NaimMediaPlayer) : NaimMediaPlayer :=
  {| _client := _client p;
     _attr_state := _attr_state p;
     _attr_volume := _attr_volume p;
     _attr_muted := _attr_muted p;
     _attr_media_position := _attr_media_position p;
     _attr_media_duration := _attr_media_duration p;
     _attr_media_title := _attr_media_title p;
     _attr_media_artist := _attr_media_artist p;
     _attr_media_album := _attr_media_album p;
     _attr_media_image_url := _attr_media_image_url p;
     _attr_source := x;
     _attr_repeat := _attr_repeat p;
     _attr_shuffle := _attr_shuffle p;
     _last_status := _last_status p;
     _connected := _connected p |}.

Definition set_attr_repeat (x : RepeatMode.t) (p : NaimMediaPlayer) : NaimMediaPlayer :=
  {| _client := _client p;
     _attr_state := _attr_state p;
     _attr_volume := _attr_volume p;
     _attr_muted := _attr_muted p;
     _attr_media_position := _attr_media_position p;
     _attr_media_duration := _attr_media_duration p;
     _attr_media_title := _attr_media_title p;
     _attr_media_artist := _attr_media_artist p;
     _attr_media_album := _attr_media_album p;
     _attr_media_image_url := _attr_media_image_url p;
     _attr_source := _attr_source p;
     _attr_repeat := x;
     _attr_shuffle := _attr_shuffle p;
     _last_status := _last_status p;
     _connected := _connected p |}.

Definition set_attr_shuffle (x : bool) (p : NaimMediaPlayer) : NaimMediaPlayer :=
  {| _client := _client p;
     _attr_state := _attr_state p;
     _attr_volume := _attr_volume p;
     _attr_muted := _attr_muted p;
     _attr_media_position := _attr_media_position p;
     _attr_media_duration := _attr_media_duration p;
     _attr_media_title := _attr_media_title p;
     _attr_media_artist := _attr_media_artist p;
     _attr_media_album := _attr_media_album p;
     _attr_media_image_url := _attr_media_image_url p;
     _attr_source := _attr_source p;
     _attr_repeat := _attr_repeat p;
     _attr_shuffle := x;
     _last_status := _last_status p;
     _connected := _connected p |}.

Definition set_last_status (x : value) (p : NaimMediaPlayer) : NaimMediaPlayer :=
  {| _client := _client p;
     _attr_state := _attr_state p;
     _attr_volume := _attr_volume p;
     _attr_muted := _attr_muted p;
     _attr_media_position := _attr_media_position p;
     _attr_media_duration := _attr_media_duration p;
     _attr_media_title := _attr_media_title p;
     _attr_media_artist := _attr_media_artist p;
     _attr_media_album := _attr_media_album p;
     _attr_media_image_url := _attr_media_image_url p;
     _attr_source := _attr_source p;
     _attr_repeat := _attr_repeat p;
     _attr_shuffle := _attr_shuffle p;
     _last_status := x;
     _connected := _connected p |}.

Definition set_connected (x : bool) (p : NaimMediaPlayer) : NaimMediaPlayer :=
  {| _client := _client p;
     _attr_state := _attr_state p;
     _attr_volume := _attr_volume p;
     _attr_muted := _attr_muted p;
     _attr_media_position := _attr_media_position p;
     _attr_media_duration := _attr_media_duration p;
     _attr_media_title := _attr_media_title p;
     _attr_media_artist := _attr_media_artist p;
     _attr_media_album := _attr_media_album p;
     _attr_media_image_url := _attr_media_image_url p;
     _attr_source := _attr_source p;
     _attr_repeat := _attr_repeat p;
     _attr_shuffle := _attr_shuffle p;
     _last_status := _last_status p;
     _connected := x |}.

(** [NaimMediaPlayer.__init__], the attributes of the entity. *)
Definition init (address : string) (port : Z) : NaimMediaPlayer :=
  {| _client := Client.init address port;
     _attr_state := States.OFF;
     _attr_volume := 0;
     _attr_muted := false;
     _attr_media_position := 0;
     _attr_media_duration := 0;
     _attr_media_title := VStr "";
     _attr_media_artist := VStr "";
     _attr_media_album := VStr "";
     _attr_media_image_url := VStr "";
     _attr_source := VStr "";
     _attr_repeat := RepeatMode.OFF;
     _attr_shuffle := false;
     _last_status := VDict ∅;
     _connected := false |}.

(** A call [await self._client.m(...)]. *)
Definition on_client {A} (m : io NaimClient A) : io NaimMediaPlayer A :=
  fun self sent =>
    match m (_client self) sent with
    | (r, c, sent') => (r, set_client c self, sent')
    end.

Section Device.

Variable dev : device.

(** The state shown for a transport state. *)
Definition state_of_transport (transport_state : value) : States.t :=
  if eq_str transport_state "2" then States.PLAYING
  else if eq_str transport_state "1" then States.PAUSED
  else if eq_str transport_state "0" then States.ON
  else if eq_str transport_state "3" then States.BUFFERING
  else States.ON.

(** The source shown for [status["source"]]: [startswith] exists on a
    string only. *)
Definition source_of_ussi (source_ussi : value) : result value :=
  match source_ussi with
  | VStr s =>
      if startswith "inputs/" s then Ok (VStr (last_item (split "/" s)))
      else Ok source_ussi
  | _ => Raise AttributeError
  end.

(** The [try] block of [update_status]. *)
Definition update_status_body : io NaimMediaPlayer unit :=
  power_state <- on_client (get_power_state dev) ;;
  match power_state with
  | None => modify (set_attr_state States.UNAVAILABLE)
  | Some false => modify (set_attr_state States.OFF)
  | Some true =>
      status <- on_client (get_status dev) ;;
      if negb (truthy status) then modify (set_attr_state States.ON)
      else
        modify (set_last_status status) ;;;
        transport_state <- lift (get status "transportState" (VStr "0")) ;;
        modify (set_attr_state (state_of_transport transport_state)) ;;;
        volume_info <- on_client (get_volume dev) ;;
        (if truthy volume_info then
           volume <- lift (and_then (get volume_info "volume" (VInt 0)) int) ;;
           modify (set_attr_volume volume) ;;;
           mute <- lift (get volume_info "mute" (VStr "0")) ;;
           modify (set_attr_muted (eq_str mute "1"))
         else ret tt) ;;;
        position <- lift (and_then (get status "transportPosition" (VInt 0)) int) ;;
        modify (set_attr_media_position (position / 1000)) ;;;
        modify (set_attr_media_duration 0) ;;;
        title <- lift (get status "title" (VStr "")) ;;
        modify (set_attr_media_title title) ;;;
        artist <- lift (get status "artist" (VStr "")) ;;
        modify (set_attr_media_artist artist) ;;;
        album <- lift (get status "album" (VStr "")) ;;
        modify (set_attr_media_album album) ;;;
        artwork <- lift (get status "artwork" (VStr "")) ;;
        modify (set_attr_media_image_url artwork) ;;;
        repeat_flag <- lift (get status "repeat" (VStr "0")) ;;
        modify (set_attr_repeat
                  (if eq_str repeat_flag "1" then RepeatMode.ONE
                   else RepeatMode.OFF)) ;;;
        shuffle_flag <- lift (get status "shuffle" (VStr "0")) ;;
        modify (set_attr_shuffle (eq_str shuffle_flag "1")) ;;;
        source_ussi <- lift (get status "source" (VStr "")) ;;
        source <- lift (source_of_ussi source_ussi) ;;
        modify (set_attr_source source)
  end.

(** [NaimMediaPlayer.update_status] *)
Definition update_status : io NaimMediaPlayer unit :=
  connected <- read _connected ;;
  if negb connected then ret tt
  else try_except update_status_body (modify (set_attr_state States.UNAVAILABLE)).

End Device.

End MediaPlayer.

(** ** Notions of the specification *)

Module Spec.
Import Py Url Net Client MediaPlayer.

(** A value clamped into [lo, hi]. *)
Definition clamp (lo hi x : Z) : Z := Z.max lo (Z.min hi x).

(** The fields of the status shown by the entity, the state apart. *)
Definition status_fields (p : NaimMediaPlayer) :=
  (_attr_volume p, _attr_muted p, _attr_media_position p,
   _attr_media_title p, _attr_media_artist p, _attr_media_album p,
   _attr_media_image_url p, _attr_source p, _attr_repeat p, _attr_shuffle p).

(** A refresh whose power fetch, or whose now-playing fetch after a
    power fetch that said on, returns no data; [st] is the state the
    code leaves in that case. *)
Inductive fetch_no_data (dev : device) (p : NaimMediaPlayer) (sent : list request)
  : States.t -> Prop :=
| power_no_data c s :
    get_power_state dev (_client p) sent = (Ok None, c, s) ->
    fetch_no_data dev p sent States.UNAVAILABLE
| nowplaying_no_data c1 s1 status c2 s2 :
    get_power_state dev (_client p) sent = (Ok (Some true), c1, s1) ->
    get_status dev c1 s1 = (Ok status, c2, s2) ->
    truthy status = false ->
    fetch_no_data dev p sent States.ON.

(** A refresh that fails: a fetch returns no data, or the refresh raises. *)
Definition refresh_fails (dev : device) (p : NaimMediaPlayer) (sent : list request) : Prop :=
  (exists st, fetch_no_data dev p sent st)
  \/ (exists e p' sent', update_status_body dev p sent = (Raise e, p', sent')).

(** The entity or its client is marked as not available. *)
Definition marked_unavailable (p : NaimMediaPlayer) : Prop :=
  _attr_state p = States.UNAVAILABLE
  \/ _connected p = false
  \/ _is_connected (_client p) = false.

(** The frame property as the specification words it, at one refresh:
    a failed refresh keeps every status field and marks the device as
    not available. *)
Definition failed_refresh_keeps_status
    (dev : device) (p : NaimMediaPlayer) (sent : list request) : Prop :=
  refresh_fails dev p sent ->
  forall r p' sent',
    update_status dev p sent = (r, p', sent') ->
    status_fields p' = status_fields p /\ marked_unavailable p'.


(** The entry [k] of the result of the normalizer, when it returned. *)
Definition entry (r : result (gmap string value)) (k : string) : option value :=
  match r with
  | Ok d => d !! k
  | Raise _ => None
  end.


(** The request that reads the volume. *)
Definition levels_request (c : NaimClient) : request :=
  mkRequest GET (urljoin (api_base c) "/levels/room") None.


End Spec.

(** ** Devices and clients used as examples *)

Module Samples.
Import Py Url Net Client MediaPlayer.

Definition address : string := "192.168.1.50".
Definition base : string := "http://192.168.1.50:15081".

Definition ok_json (v : value) : outcome :=
  Response (mkResponse 200 "application/json" "" (Some v)).

Definition http_error (code : Z) : outcome :=
  Response (mkResponse code "text/plain" "error" None).

Definition page (body : string) : outcome :=
  Response (mkResponse 200 "text/html" body None).

Fixpoint route (table : list (string * outcome)) (url : string) : outcome :=
  match table with
  | [] => http_error 404
  | (endpoint, o) :: rest =>
      if String.eqb url (base ++ endpoint) then o else route rest url
  end.

(** A device that answers by the URL alone. *)
Definition serve (table : list (string * outcome)) : device :=
  fun _ req => route table (req_url req).

(** A client with a session, as [connect] leaves it. *)
Definition client : NaimClient :=
  set_is_connected true (set_session true (Client.init address 15081)).

(** A connected entity showing a volume of 10 and a track. *)
Definition player : NaimMediaPlayer :=
  set_attr_media_title (VStr "Blue in Green")
    (set_attr_volume 10
       (set_attr_state States.PLAYING
          (set_connected true
             (set_client client (MediaPlayer.init address 15081))))).

(** A firmware that serves its API under [/naim] only and answers every
    other path with a page that redirects there. *)
Definition redirect_page : string :=
  "<html><meta http-equiv=refresh content=0;url=naim/index.fcgi></html>".

Definition dev_naim_prefix : device :=
  fun _ req =>
    if startswith (base ++ "/naim/") (req_url req)
    then ok_json (VDict (<["system" := VStr "on"]> ∅))
    else page redirect_page.

(** A device that does not answer at all. *)
Definition dev_unreachable : device := fun _ _ => Failed.

(** The device is on, its now-playing endpoint answers 500. *)
Definition dev_nowplaying_down : device :=
  serve [("/power", ok_json (VDict (<["system" := VStr "on"]> ∅)));
         ("/nowplaying", http_error 500)].

(** The device is on and playing; its position is not a number. *)
Definition dev_bad_position : device :=
  serve [("/power", ok_json (VDict (<["system" := VStr "on"]> ∅)));
         ("/nowplaying",
           ok_json (VDict (<["transportState" := VStr "2"]>
                          (<["transportPosition" := VStr "abc"]> ∅))));
         ("/levels/room",
           ok_json (VDict (<["volume" := VStr "40"]>
                          (<["mute" := VStr "1"]> ∅))))].

(** The volume of the room is not a number. *)
Definition dev_bad_volume : device :=
  serve [("/levels/room", ok_json (VDict (<["volume" := VStr "abc"]> ∅)))].

(** The volume of the room is 98 (resp. 2); every PUT is accepted. *)
Definition dev_volume (v : string) : device :=
  fun _ req =>
    match req_method req with
    | PUT => ok_json (VDict ∅)
    | GET => ok_json (VDict (<["volume" := VStr v]> (<["mute" := VStr "0"]> ∅)))
    end.

(** A device that accepts every request. *)
Definition dev_accepting : device := fun _ _ => ok_json (VDict ∅).

(** Input lists: Spotify selectable, Spotify not selectable. *)
Definition input (ussi name selectable : string) : value :=
  VDict (<["ussi" := VStr ussi]> (<["name" := VStr name]>
          (<["selectable" := VStr selectable]> ∅))).



End Samples.

(** ** Reasoning about methods *)

Module Hoare.
Import Py Net.

(** The requests a call of [_request] sends: one with a session, none
    without. *)
Definition sent_by (c : Client.NaimClient) (m : method) (endpoint : string)
  : list request :=
  if Client._session c
  then [mkRequest m (Url.urljoin (Client.api_base c) endpoint) None]
  else [].

(** [wp m self sent Q]: running [m] on the object [self] with the log
    [sent] ends in a result, an object and a log that satisfy [Q]. *)
Definition wp {S A} (m : io S A) (self : S) (sent : list request)
    (Q : result A -> S -> list request -> Prop) : Prop :=
  match m self sent with
  | (r, self', sent') => Q r self' sent'
  end.

(** A method that leaves its object as it is and only adds to the log. *)
Definition keeps {S A} (m : io S A) : Prop :=
  forall self sent,
    exists r extra, m self sent = (r, self, (sent ++ extra)%list).

(** A method that leaves the field [f] of its object as it is. *)
Definition preserves {S A B} (f : S -> B) (m : io S A) : Prop :=
  forall self sent, f (m self sent).1.2 = f self.

(** A method that sends nothing. *)
Definition silent {S A} (m : io S A) : Prop :=
  forall self sent, (m self sent).2 = sent.

(** The requests of a status refresh, in the order they are sent. *)
Definition refresh_requests (c : Client.NaimClient) : list request :=
  (sent_by c GET "/power" ++ sent_by c GET "/nowplaying"
   ++ sent_by c GET "/levels/room")%list.

(** What [connect] keeps while it runs on the client [c] with the log
    [sent]: the session is there, the address is the same, the base
    of the API is the old one or one of the two it can set, and the [n]
    requests sent so far are GETs. *)
Definition connect_inv (c : Client.NaimClient) (sent : list request) (n : nat)
    (c' : Client.NaimClient) (sent' : list request) : Prop :=
  Client._session c' = true
  /\ Client.host c' = Client.host c
  /\ Client.port c' = Client.port c
  /\ Client.base_url c' = Client.base_url c
  /\ Client._is_connected c' = Client._is_connected c
  /\ (Client.api_base c' = Client.api_base c
      \/ Client.api_base c' = Client.base_url c
      \/ Client.api_base c' = Client.base_url c ++ "/naim")
  /\ exists extra,
       sent' = (sent ++ extra)%list
       /\ Forall (fun q => req_method q = GET) extra
       /\ List.length extra = n.

End Hoare.

(** ** [uc_intg_naim/client.py]: the source lists of [NaimClient] *)

Module Sources.
Import Py Net Client.

(** The body of the loop of [get_sources] for one input: the source it
    appends, if any. *)
Definition source_of_input (input_info : value) : result (option string) :=
  and_then (get input_info "selectable" VNone) (fun selectable =>
  if eq_str selectable "1" then
    and_then (get input_info "disabled" VNone) (fun disabled =>
    if negb (eq_str disabled "1") then
      and_then (get input_info "ussi" (VStr "")) (fun ussi =>
      match ussi with
      | VStr u =>
          if startswith "inputs/" u then Ok (Some (last_item (split "/" u)))
          else Ok None
      | _ => Raise AttributeError
      end)
    else Ok None)
  else Ok None).

(** The [for input_info in self._available_inputs] loop of
    [get_sources]; [sources] is the list built so far. *)
Fixpoint get_sources_loop (sources : list string) (inputs : list value)
  : result (list string) :=
  match inputs with
  | [] => Ok sources
  | input_info :: rest =>
      and_then (source_of_input input_info) (fun found =>
      match found with
      | Some source_id => get_sources_loop (sources ++ [source_id])%list rest
      | None => get_sources_loop sources rest
      end)
  end.

Definition default_sources : list string :=
  ["radio"; "bluetooth"; "spotify"; "dig5"; "hdmi"].

(** [NaimClient.get_sources] *)
Definition get_sources : io NaimClient (list string) :=
  available <- read _available_inputs ;;
  inputs <- lift (iter available) ;;
  sources <- lift (get_sources_loop [] inputs) ;;
  ret (match sources with
       | [] => default_sources
       | _ :: _ => sources
       end).

(** The body of the loop of [get_source_names] for one input. *)
Definition name_of_input (source_names : gmap string value) (input_info : value)
  : result (gmap string value) :=
  and_then (get input_info "ussi" (VStr "")) (fun ussi =>
  match ussi with
  | VStr u =>
      if startswith "inputs/" u then
        let source_id := last_item (split "/" u) in
        and_then (get input_info "name" (VStr source_id)) (fun friendly_name =>
        Ok (<[source_id := friendly_name]> source_names))
      else Ok source_names
  | _ => Raise AttributeError
  end).

Fixpoint get_source_names_loop (source_names : gmap string value)
    (inputs : list value) : result (gmap string value) :=
  match inputs with
  | [] => Ok source_names
  | input_info :: rest =>
      and_then (name_of_input source_names input_info) (fun names =>
      get_source_names_loop names rest)
  end.

Definition default_source_names : gmap string value :=
  list_to_map
    [("ana1", VStr "Analogue 1"); ("ana2", VStr "Analogue 2");
     ("ana3", VStr "Analogue 3"); ("ana4", VStr "Analogue 4");
     ("dig1", VStr "Digital 1"); ("dig2", VStr "Digital 2");
     ("dig3", VStr "Digital 3"); ("dig4", VStr "Digital 4");
     ("dig5", VStr "Digital 5");
     ("hdmi", VStr "HDMI");
     ("bluetooth", VStr "Bluetooth");
     ("radio", VStr "Internet Radio");
     ("spotify", VStr "Spotify");
     ("tidal", VStr "TIDAL");
     ("qobuz", VStr "Qobuz");
     ("usb", VStr "USB");
     ("airplay", VStr "AirPlay");
     ("gcast", VStr "Chromecast");
     ("upnp", VStr "UPnP/Servers");
     ("playqueue", VStr "Play Queue");
     ("files", VStr "Local Files");
     ("multiroom", VStr "Multi-room")].

(** [NaimClient.get_source_names] *)
Definition get_source_names : io NaimClient (gmap string value) :=
  available <- read _available_inputs ;;
  inputs <- lift (iter available) ;;
  source_names <- lift (get_source_names_loop ∅ inputs) ;;
  ret (if truthy (VDict source_names) then source_names
       else default_source_names).

(** [NaimClient.get_available_inputs_detailed] *)
Definition get_available_inputs_detailed : io NaimClient value :=
  read _available_inputs.

(** [NaimClient.is_connected] *)
Definition is_connected (c : NaimClient) : bool := _is_connected c.

(** The input [input_info] is listed as the source [source_id]: it is
    marked selectable, not marked disabled, and its path starts with
    [inputs/] and ends with the source. *)
Definition listed_as (input_info : value) (source_id : string) : Prop :=
  exists d u,
    input_info = VDict d
    /\ eq_str (dget d "selectable" VNone) "1" = true
    /\ eq_str (dget d "disabled" VNone) "1" = false
    /\ dget d "ussi" (VStr "") = VStr u
    /\ startswith "inputs/" u = true
    /\ source_id = last_item (split "/" u).

End Sources.

(** ** [uc_intg_naim/remote.py]: class [NaimRemote] *)

Module Remote.
Import Py Net Client.

(** [ucapi.StatusCodes] *)
Module StatusCodes.
Inductive t : Type :=
| OK | BAD_REQUEST | UNAUTHORIZED | NOT_FOUND | TIMEOUT | CONFLICT
| SERVER_ERROR | NOT_IMPLEMENTED | SERVICE_UNAVAILABLE.
End StatusCodes.

(** [ucapi.remote.Commands.SEND_CMD], a constant of the ucapi library. *)
Definition SEND_CMD : string := "send_cmd".

Record NaimRemote : Type := mkRemote {
  _client : NaimClient;
  _connected : bool
}.

(** [NaimRemote.__init__] *)
Definition init (address : string) (port : Z) : NaimRemote :=
  {| _client := Client.init address port; _connected := false |}.

Definition set_client (c : NaimClient) (r : NaimRemote) : NaimRemote :=
  {| _client := c; _connected := _connected r |}.

Definition set_connected (b : bool) (r : NaimRemote) : NaimRemote :=
  {| _client := _client r; _connected := b |}.

(** A call [await self._client.m(...)]. *)
Definition on_client {A} (m : io NaimClient A) : io NaimRemote A :=
  fun self sent =>
    match m (Remote._client self) sent with
    | (r, c, sent') => (r, set_client c self, sent')
    end.

(** The commands of the navigation branch. *)
Definition navigation_commands : list string :=
  ["UP"; "DOWN"; "LEFT"; "RIGHT"; "OK"; "BACK"; "PAGE_UP"; "PAGE_DOWN"].

Section Device.

Variable dev : device.

(** The [try] block of [_handle_simple_command]. *)
Definition simple_command_body (command : value) : io NaimRemote bool :=
  if eq_str command "POWER_ON" then on_client (power_on dev)
  else if eq_str command "POWER_OFF" then on_client (power_off dev)
  else if eq_str command "POWER_TOGGLE" then
    power_state <- on_client (get_power_state dev) ;;
    match power_state with
    | Some true => on_client (power_off dev)
    | Some false | None => on_client (power_on dev)
    end
  else if eq_str command "VOLUME_UP" then on_client (volume_up dev 3)
  else if eq_str command "VOLUME_DOWN" then on_client (volume_down dev 3)
  else if eq_str command "MUTE_TOGGLE" then
    volume_info <- on_client (get_volume dev) ;;
    muted <-
      (if truthy volume_info then
         mute_flag <- lift (get volume_info "mute" (VStr "0")) ;;
         ret (eq_str mute_flag "1")
       else ret false) ;;
    if muted then on_client (unmute dev) else on_client (mute dev)
  else if eq_str command "MUTE" then on_client (mute dev)
  else if eq_str command "UNMUTE" then on_client (unmute dev)
  else if eq_str command "PLAY" then on_client (play dev)
  else if eq_str command "PAUSE" then on_client (pause dev)
  else if eq_str command "PLAY_PAUSE" then
    status <- on_client (get_status dev) ;;
    playing <-
      (if truthy status then
         transport_state <- lift (get status "transportState" VNone) ;;
         ret (eq_str transport_state "2")
       else ret false) ;;
    if playing then on_client (pause dev) else on_client (play dev)
  else if eq_str command "STOP" then on_client (stop dev)
  else if eq_str command "NEXT" then on_client (next_track dev)
  else if eq_str command "PREVIOUS" then on_client (previous_track dev)
  else if eq_str command "FORWARD" then on_client (next_track dev)
  else if eq_str command "REWIND" then on_client (previous_track dev)
  else if existsb (eq_str command) navigation_commands then ret true
  else if eq_str command "SOURCE_ANA1" then on_client (set_source dev "ana1")
  else if eq_str command "SOURCE_DIG1" then on_client (set_source dev "dig1")
  else if eq_str command "SOURCE_DIG2" then on_client (set_source dev "dig2")
  else if eq_str command "SOURCE_DIG3" then on_client (set_source dev "dig3")
  else if eq_str command "SOURCE_HDMI" then on_client (set_source dev "hdmi")
  else if eq_str command "SOURCE_RADIO" then on_client (set_source dev "radio")
  else if eq_str command "SOURCE_BLUETOOTH" then on_client (set_source dev "bluetooth")
  else if eq_str command "SOURCE_SPOTIFY" then on_client (set_source dev "spotify")
  else if eq_str command "SOURCE_TIDAL" then on_client (set_source dev "tidal")
  else if eq_str command "SOURCE_QOBUZ" then on_client (set_source dev "qobuz")
  else if eq_str command "SOURCE_USB" then on_client (set_source dev "usb")
  else if eq_str command "SOURCE_AIRPLAY" then on_client (set_source dev "airplay")
  else if eq_str command "SOURCE_GCAST" then on_client (set_source dev "gcast")
  else if eq_str command "SOURCE_UPNP" then on_client (set_source dev "upnp")
  else if eq_str command "SOURCE_PLAYQUEUE" then on_client (set_source dev "playqueue")
  else if eq_str command "SOURCE_FILES" then on_client (set_source dev "files")
  else if eq_str command "BALANCE_LEFT" then on_client (set_balance (-25))
  else if eq_str command "BALANCE_RIGHT" then on_client (set_balance 25)
  else if eq_str command "BALANCE_CENTER" then on_client (set_balance 0)
  else ret false.

(** [NaimRemote._handle_simple_command] *)
Definition _handle_simple_command (command : value) : io NaimRemote bool :=
  try_except (simple_command_body command) (ret false).

(** The status code for the result of a simple command. *)
Definition status_of (success : bool) : StatusCodes.t :=
  if success then StatusCodes.OK else StatusCodes.SERVER_ERROR.

(** [NaimRemote.command_handler] *)
Definition command_handler (cmd_id : string) (params : value)
  : io NaimRemote StatusCodes.t :=
  try_except
    (if String.eqb cmd_id SEND_CMD then
       has_command <-
         (if truthy params then lift (contains "command" params)
          else ret false) ;;
       if negb has_command then ret StatusCodes.BAD_REQUEST
       else
         command <- lift (getitem params "command") ;;
         success <- _handle_simple_command command ;;
         ret (status_of success)
     else
       success <- _handle_simple_command (VStr cmd_id) ;;
       ret (status_of success))
    (ret StatusCodes.SERVER_ERROR).

(** [NaimRemote.connect] *)
Definition connect : io NaimRemote bool :=
  success <- on_client (Client.connect dev) ;;
  (if success then modify (set_connected true) else ret tt) ;;;
  ret success.

(** [NaimRemote.disconnect] *)
Definition disconnect : io NaimRemote unit :=
  modify (set_connected false) ;;;
  on_client Client.disconnect.

End Device.

(** [NaimRemote.is_connected] *)
Definition is_connected (r : NaimRemote) : bool :=
  _connected r && _is_connected (Remote._client r).

End Remote.

(** ** [uc_intg_naim/media_player.py]: connection and monitoring of
    [NaimMediaPlayer] *)

Module Entity.
Import Py Net Client MediaPlayer.

(** The entity: the attributes of [MediaPlayer.NaimMediaPlayer] and the
    fields of the object that the status refresh does not read.  The
    update task is [None], or a task that is done or not. *)
Record t : Type := mkEntity {
  player : NaimMediaPlayer;
  _attr_source_list : list string;
  _monitoring : bool;
  _update_task : option bool
}.

(** [NaimMediaPlayer.__init__], the remaining fields. *)
Definition init (address : string) (port : Z) : t :=
  {| player := MediaPlayer.init address port;
     _attr_source_list := [];
     _monitoring := false;
     _update_task := None |}.

Definition set_player (p : NaimMediaPlayer) (e : t) : t :=
  {| player := p; _attr_source_list := _attr_source_list e;
     _monitoring := _monitoring e; _update_task := _update_task e |}.

Definition set_attr_source_list (l : list string) (e : t) : t :=
  {| player := player e; _attr_source_list := l;
     _monitoring := _monitoring e; _update_task := _update_task e |}.

Definition set_monitoring (b : bool) (e : t) : t :=
  {| player := player e; _attr_source_list := _attr_source_list e;
     _monitoring := b; _update_task := _update_task e |}.

Definition set_update_task (task : option bool) (e : t) : t :=
  {| player := player e; _attr_source_list := _attr_source_list e;
     _monitoring := _monitoring e; _update_task := task |}.

(** A method that works on the attributes of the player. *)
Definition on_player {A} (m : io NaimMediaPlayer A) : io t A :=
  fun self sent =>
    match m (player self) sent with
    | (r, p, sent') => (r, set_player p self, sent')
    end.

(** [self._update_task is None or self._update_task.done()] *)
Definition no_running_task (e : t) : bool :=
  match _update_task e with
  | None => true
  | Some done => done
  end.

(** [NaimMediaPlayer.start_monitoring]; the task created is not done. *)
Definition start_monitoring (e : t) : t :=
  if negb (_connected (player e)) then e
  else if _monitoring e then e
  else if no_running_task e then
    set_update_task (Some false) (set_monitoring true e)
  else e.

(** [NaimMediaPlayer.stop_monitoring] *)
Definition stop_monitoring (e : t) : t :=
  if _monitoring e then
    let e1 := set_monitoring false e in
    match _update_task e1 with
    | Some false => set_update_task None e1
    | Some true | None => e1
    end
  else e.

Section Device.

Variable dev : device.

(** [NaimMediaPlayer.connect] *)
Definition connect : io t bool :=
  success <- on_player (on_client (Client.connect dev)) ;;
  (if success then
     on_player (modify (set_connected true)) ;;;
     sources <- on_player (on_client Sources.get_sources) ;;
     modify (set_attr_source_list sources) ;;;
     on_player (update_status dev)
   else ret tt) ;;;
  ret success.

(** [NaimMediaPlayer.disconnect] *)
Definition disconnect : io t unit :=
  modify stop_monitoring ;;;
  on_player (modify (set_connected false)) ;;;
  on_player (on_client Client.disconnect).

End Device.

(** [NaimMediaPlayer.is_connected] *)
Definition is_connected (e : t) : bool :=
  _connected (player e) && _is_connected (MediaPlayer._client (player e)).

(** The monitoring fields agree: an entity that monitors is connected
    and holds an update task, and a task that is not done belongs to an
    entity that monitors. *)
Definition monitoring_ok (e : t) : Prop :=
  (_monitoring e = true ->
   _connected (player e) = true /\ _update_task e <> None)
  /\ (_update_task e = Some false -> _monitoring e = true).

End Entity.

(** ** More devices used as examples *)

Module MoreSamples.
Import Py Net Client.

(** A device that answers every request with the same JSON object. *)
Definition dev_plain : device :=
  fun _ _ => Samples.ok_json (VDict (<["hostname" := VStr "Uniti"]> ∅)).

(** A device that lists its inputs as plain names. *)
Definition dev_flat_inputs : device :=
  fun _ _ => Samples.ok_json (VDict (<["children" := VList [VStr "ana1"]]> ∅)).

(** A cache where Spotify is disabled and the radio is listed. *)
Definition inputs_mixed : value :=
  VList [VDict (<["ussi" := VStr "inputs/spotify"]>
                 (<["name" := VStr "Spotify"]>
                 (<["selectable" := VStr "1"]>
                 (<["disabled" := VStr "1"]> ∅))));
         Samples.input "inputs/radio" "Internet Radio" "1"].

(** A client that was connected with a cached system information, then
    disconnected. *)
Definition cached : NaimClient :=
  set_device_info (VDict (<["hostname" := VStr "Uniti"]> ∅)) Samples.client.

End MoreSamples.

(** ** Properties *)

Import Py Url Net Client MediaPlayer Spec.

(** *** The transport *)

Section RequestFacts.

Variable dev : device.

Lemma request_no_session m endpoint j c sent :
  _session c = false ->
  _request dev m endpoint j c sent = (Ok VNone, c, sent).
Proof. intros H. unfold _request. now rewrite H. Qed.

Lemma request_with_session m endpoint j c sent :
  _session c = true ->
  exists v,
    _request dev m endpoint j c sent
    = (Ok v, c, (sent ++ [mkRequest m (urljoin (api_base c) endpoint) j])%list).
Proof.
  intros H. unfold _request. rewrite H. simpl.
  destruct (dev sent _) as [|r]; [now eexists|].
  destruct (status r =? 200)%Z; [|now eexists].
  destruct (String.eqb (content_type r) _).
  - destruct (json r); now eexists.
  - destruct (_ && _); now eexists.
Qed.



Lemma one_request_command_no_session m endpoint c sent :
  _session c = false ->
  (response <- _request dev m endpoint None ;; ret (is_not_none response)) c sent
  = (Ok false, c, sent).
Proof. intros H. unfold bind, ret. now rewrite request_no_session. Qed.


End RequestFacts.

(** *** [urljoin] and the path of the base *)

Lemma break_at_free stop s :
  free_of stop s = true -> break_at stop s = (s, EmptyString).
Proof.
  induction s as [|c s IH]; simpl; [reflexivity|].
  intros H. apply andb_true_iff in H as [Hc Hs].
  apply negb_true_iff in Hc. rewrite Hc, (IH Hs). reflexivity.
Qed.

Lemma break_at_free_then_stop stop s c rest :
  free_of stop s = true -> stop c = true ->
  break_at stop (s ++ String c rest) = (s, String c rest).
Proof.
  intros Hs Hc. induction s as [|a s IH]; simpl.
  - now rewrite Hc.
  - simpl in Hs. apply andb_true_iff in Hs as [Ha Hs].
    apply negb_true_iff in Ha. rewrite Ha, (IH Hs). reflexivity.
Qed.

(** The parts of a base [http://...], given where its host ends. *)
Lemma urlsplit_after_host rest nl u2 :
  break_at is_delim rest = (nl, u2) ->
  urlsplit ("http://" ++ rest) ""
  = let '(u3, frag) := break_at (Ascii.eqb "#") u2 in
    let '(pth, qry) := break_at (Ascii.eqb "?") u3 in
    mkParts "http" nl pth (tail qry) (tail frag).
Proof.
  intros H. unfold urlsplit.
  change (split_scheme ("http://" ++ rest) "") with ("http", "//" ++ rest).
  cbv beta iota.
  change (startswith "//" ("//" ++ rest)) with true.
  change (tail (tail ("//" ++ rest))) with rest.
  cbv beta iota. rewrite H. reflexivity.
Qed.

(** The parts of the two bases the client uses. *)
Lemma urlsplit_base hostport :
  free_of is_delim hostport = true ->
  urlsplit ("http://" ++ hostport) "" = mkParts "http" hostport "" "" ""
  /\ urlsplit ("http://" ++ hostport ++ "/naim") ""
     = mkParts "http" hostport "/naim" "" "".
Proof.
  intros H. split.
  - now rewrite (urlsplit_after_host _ _ _ (break_at_free _ _ H)).
  - now rewrite (urlsplit_after_host _ _ _
                   (break_at_free_then_stop is_delim hostport "/" "naim" H eq_refl)).
Qed.

Lemma startswith_slash s :
  startswith "/" s = true -> exists s', s = String "/" s'.
Proof.
  destruct s as [|c s]; [discriminate|].
  cbn [startswith]. destruct (Ascii.eqb_spec "/" c) as [<-|]; [|discriminate].
  now eexists.
Qed.

(** An endpoint that starts with one slash has no scheme and no host of
    its own, and its path starts with the slash. *)
Lemma urlsplit_endpoint endpoint :
  startswith "/" endpoint = true ->
  startswith "//" endpoint = false ->
  exists pth qry frag,
    urlsplit endpoint "http" = mkParts "http" "" (String "/" pth) qry frag.
Proof.
  intros H1 H2. destruct (startswith_slash _ H1) as [e ->].
  assert (Hs : split_scheme (String "/" e) "http" = ("http", String "/" e)).
  { unfold split_scheme. cbn [break_at].
    change (Ascii.eqb ":" "/") with false. cbv beta iota.
    destruct (break_at (Ascii.eqb ":") e) as [a b].
    destruct b; reflexivity. }
  unfold urlsplit. rewrite Hs. cbv beta iota. rewrite H2.
  cbn [break_at]. change (Ascii.eqb "#" "/") with false. cbv beta iota.
  destruct (break_at (Ascii.eqb "#") e) as [u3 frag].
  cbn [break_at]. change (Ascii.eqb "?" "/") with false. cbv beta iota.
  destruct (break_at (Ascii.eqb "?") u3) as [pth qry].
  now do 3 eexists.
Qed.

(** [urljoin] with an endpoint that starts with a slash drops the path
    of the base: the base with [/naim] and the base without it give the
    same URL. *)
Lemma urljoin_ignores_base_path hostport endpoint :
  free_of is_delim hostport = true ->
  startswith "/" endpoint = true ->
  startswith "//" endpoint = false ->
  urljoin ("http://" ++ hostport ++ "/naim") endpoint
  = urljoin ("http://" ++ hostport) endpoint.
Proof.
  intros Hh H1 H2.
  destruct (urlsplit_base hostport Hh) as [Hb Hn].
  destruct (urlsplit_endpoint endpoint H1 H2) as (pth & qry & frag & He).
  destruct (startswith_slash _ H1) as [e ->].
  unfold urljoin. rewrite Hb, Hn. cbn [scheme]. rewrite He.
  change (String.eqb (String "/" e) "") with false.
  change (String.eqb ("http://" ++ hostport ++ "/naim") "") with false.
  change (String.eqb ("http://" ++ hostport) "") with false.
  cbn [scheme netloc path query fragment].
  change (String.eqb (String "/" pth) "") with false.
  change (startswith "/" (String "/" pth)) with true.
  cbv beta iota. reflexivity.
Qed.

(** Hence a request made with the prefixed base stored goes where the
    unprefixed base sends it. *)
Lemma request_with_prefix_is_unprefixed dev m endpoint j c sent hostport :
  _session c = true ->
  api_base c = "http://" ++ hostport ++ "/naim" ->
  free_of is_delim hostport = true ->
  startswith "/" endpoint = true ->
  startswith "//" endpoint = false ->
  exists v,
    _request dev m endpoint j c sent
    = (Ok v, c,
       (sent ++ [mkRequest m (urljoin ("http://" ++ hostport) endpoint) j])%list).
Proof.
  intros Hs Hb Hh H1 H2.
  destruct (request_with_session dev m endpoint j c sent Hs) as [v Hv].
  exists v. rewrite Hv, Hb, (urljoin_ignores_base_path _ _ Hh H1 H2). reflexivity.
Qed.

(** *** The URL of a request *)









(** *** Volume *)





(** *** Commands without a session *)

Lemma get_power_state_no_session dev c sent :
  _session c = false -> get_power_state dev c sent = (Ok None, c, sent).
Proof.
  intros H. unfold get_power_state, bind. now rewrite request_no_session.
Qed.

Lemma volume_up_no_session dev step c sent :
  _session c = false -> volume_up dev step c sent = (Ok false, c, sent).
Proof.
  intros H. unfold volume_up, get_volume, bind. now rewrite request_no_session.
Qed.

Lemma volume_down_no_session dev step c sent :
  _session c = false -> volume_down dev step c sent = (Ok false, c, sent).
Proof.
  intros H. unfold volume_down, get_volume, bind. now rewrite request_no_session.
Qed.


(** Without a session the loop of [set_source] sends nothing and never
    reports success. *)
Lemma set_source_loop_no_session dev source inputs c sent :
  _session c = false ->
  exists r, set_source_loop dev source inputs c sent = (r, c, sent) /\ r <> Ok true.
Proof.
  intros H. induction inputs as [|x rest IH]; simpl.
  - rewrite one_request_command_no_session by exact H. now eexists.
  - unfold bind at 1, lift at 1.
    destruct (input_matches source x) as [[|]|e]; [| exact IH | now eexists].
    unfold bind at 1, lift at 1.
    destruct (get x "selectable" VNone) as [sel|e]; [|now eexists].
    destruct (eq_str sel "1").
    + rewrite one_request_command_no_session by exact H. now eexists.
    + now eexists.
Qed.




(** The session is absent before the first [connect] and after every
    [disconnect]. *)
Lemma no_session_at_init_and_after_disconnect host port c sent :
  _session (Client.init host port) = false
  /\ exists c', disconnect c sent = (Ok tt, c', sent) /\ _session c' = false.
Proof. split; [reflexivity|]. eexists. split; reflexivity. Qed.

(** *** Commands and malformed answers *)


(** C5. The claim fails for [volume_up] and [volume_down]: when the
    body of [/levels/room] has a volume that is not a number, [int]
    raises [ValueError] and the exception leaves the command method,
    after the one GET that read the volume. *)
Theorem C5_volume_step_raises :
  volume_up Samples.dev_bad_volume 3 Samples.client []
  = (Raise ValueError, Samples.client,
     [mkRequest GET "http://192.168.1.50:15081/levels/room" None])
  /\ volume_down Samples.dev_bad_volume 3 Samples.client []
     = (Raise ValueError, Samples.client,
        [mkRequest GET "http://192.168.1.50:15081/levels/room" None]).
Proof. split; vm_compute; reflexivity. Qed.

(** *** The status normalizer *)

(** C3. The claim fails: on a status whose [transportPosition] is the
    string [abc] the normalizer raises [ValueError]; it returns no
    result and no zero position. *)
Theorem C3_normalize_raises_on_bad_position :
  _normalize_status (<["transportPosition" := VStr "abc"]> ∅) = Raise ValueError.
Proof. vm_compute. reflexivity. Qed.

(** The flags of the normalizer never raise: a flag that is not the
    string [1] comes out false. *)
Lemma normalize_flags status normalized :
  truthy (VDict status) = true ->
  _normalize_status status = Ok normalized ->
  normalized !! "live" = Some (VBool (eq_str (dget status "live" (VStr "0")) "1"))
  /\ normalized !! "shuffle"
     = Some (VBool (eq_str (dget status "shuffle" (VStr "0")) "1")).
Proof.
  intros Ht H. unfold _normalize_status in H. rewrite Ht in H.
  cbn [negb] in H. unfold and_then in H.
  destruct (source_id_of _) as [sid|]; [|discriminate].
  destruct (int _) as [pos|]; [|discriminate].
  injection H as <-. split; reflexivity.
Qed.

(** C9. The claim fails in [_normalize_status]: a source that is not of
    the form [inputs/<id>] but has a slash, as [upnp/server1], is cut to
    what follows its last slash, where [update_status] of the media
    player, which tests the prefix [inputs/], leaves it whole. *)
Theorem C9_normalizer_cuts_any_path :
  entry (_normalize_status (<["source" := VStr "upnp/server1"]> ∅)) "source"
  = Some (VStr "server1")
  /\ source_of_ussi (VStr "upnp/server1") = Ok (VStr "upnp/server1").
Proof. split; vm_compute; reflexivity. Qed.

(** *** Prefix negotiation *)

(** C1. The claim fails: at a device whose root page carries the marker
    [naim/index.fcgi], [connect] succeeds and stores the base
    [http://host:port/naim], yet the re-validation and every later
    request go to the unprefixed path, because [urljoin] replaces the
    path of the base by an endpoint that starts with a slash. *)
Theorem C1_prefix_is_dropped_by_urljoin :
  exists c sent,
    connect Samples.dev_naim_prefix (Client.init Samples.address 15081) []
    = (Ok true, c, sent)
    /\ api_base c = "http://192.168.1.50:15081/naim"
    /\ req_url <$> sent
       = ["http://192.168.1.50:15081/";
          "http://192.168.1.50:15081/nowplaying";
          "http://192.168.1.50:15081/system";
          "http://192.168.1.50:15081/inputs"]
    /\ exists c' sent',
         power_on Samples.dev_naim_prefix c sent = (Ok true, c', sent')
         /\ req_url <$> sent'
            = ((req_url <$> sent)
               ++ ["http://192.168.1.50:15081/power?system=on"])%list.
Proof.
  do 2 eexists. split; [vm_compute; reflexivity|].
  split; [reflexivity|]. split; [reflexivity|].
  do 2 eexists. split; [vm_compute; reflexivity|]. reflexivity.
Qed.

(** A dict with a key is not empty, hence true in an [if]. *)
Lemma truthy_dict_with_key (d : gmap string value) k x :
  d !! k = Some x -> truthy (VDict d) = true.
Proof.
  intros H. simpl. destruct (map_to_list d) eqn:E; [|reflexivity].
  apply map_to_list_empty_iff in E. subst d. now rewrite lookup_empty in H.
Qed.

(** C4. The transport-state table: the code whose text is [0] gives
    [stopped], [1] gives [paused], [2] gives [playing], [3] gives
    [buffering] and every other code gives [unknown]; the function is
    total.  Whenever the normalizer returns a result for a non-empty
    status, its state is the table applied to the transport state of the
    status (the code [0] when there is none). *)
Theorem C4_transport_state_table :
  (forall code : value,
     _transport_state_to_play_state code
     = if String.eqb (str code) "0" then "stopped"
       else if String.eqb (str code) "1" then "paused"
       else if String.eqb (str code) "2" then "playing"
       else if String.eqb (str code) "3" then "buffering"
       else "unknown")
  /\ (forall status normalized,
        truthy (VDict status) = true ->
        _normalize_status status = Ok normalized ->
        normalized !! "state"
        = Some (VStr (_transport_state_to_play_state
                        (dget status "transportState" (VStr "0"))))).
Proof.
  split.
  - intros code. unfold _transport_state_to_play_state, state_map.
    generalize (str code) as k. intros k.
    destruct (String.eqb_spec k "0") as [->|H0]; [reflexivity|].
    rewrite lookup_insert_ne by congruence.
    destruct (String.eqb_spec k "1") as [->|H1]; [reflexivity|].
    rewrite lookup_insert_ne by congruence.
    destruct (String.eqb_spec k "2") as [->|H2]; [reflexivity|].
    rewrite lookup_insert_ne by congruence.
    destruct (String.eqb_spec k "3") as [->|H3]; [reflexivity|].
    rewrite lookup_insert_ne by congruence.
    now rewrite lookup_empty.
  - intros status normalized Ht H.
    unfold _normalize_status in H. rewrite Ht in H.
    cbn [negb] in H. unfold and_then in H.
    destruct (source_id_of _) as [sid|]; [|discriminate].
    destruct (int _) as [pos|]; [|discriminate].
    injection H as <-. reflexivity.
Qed.

Lemma C4_transport_state_table_witness :
  entry (_normalize_status (<["transportState" := VStr "2"]> ∅)) "state"
  = Some (VStr "playing").
Proof.
  pose proof (proj2 C4_transport_state_table
                (<["transportState" := VStr "2"]> ∅)) as H.
  assert (Hok : is_ok (_normalize_status (<["transportState" := VStr "2"]> ∅))
                = true) by (vm_compute; reflexivity).
  unfold entry.
  destruct (_normalize_status (<["transportState" := VStr "2"]> ∅))
    as [normalized|e].
  - rewrite (H normalized eq_refl eq_refl). reflexivity.
  - discriminate Hok.
Defined.

(** The codes of the wire protocol, one by one. *)
Lemma transport_state_codes :
  _transport_state_to_play_state (VStr "0") = "stopped"
  /\ _transport_state_to_play_state (VStr "1") = "paused"
  /\ _transport_state_to_play_state (VStr "2") = "playing"
  /\ _transport_state_to_play_state (VStr "3") = "buffering"
  /\ _transport_state_to_play_state (VStr "4") = "unknown"
  /\ _transport_state_to_play_state (VStr "playing") = "unknown"
  /\ _transport_state_to_play_state VNone = "unknown".
Proof. repeat split; reflexivity. Qed.

(** *** Volume steps *)

(** C7. [volume_up] and [volume_down] read the volume and then call
    [set_volume]: when the device reports a volume [current] within
    [0, 100] and the step is not negative, the target handed to
    [set_volume] is [current + step] (resp. [current - step]) clamped
    into [0, 100], on the client and log the read left. *)
Theorem C7_volume_step_clamps dev c sent step d x current c1 sent1 :
  get_volume dev c sent = (Ok (VDict d), c1, sent1) ->
  d !! "volume" = Some x ->
  int x = Ok current ->
  (0 <= current <= 100)%Z ->
  (0 <= step)%Z ->
  volume_up dev step c sent
  = set_volume dev (clamp 0 100 (current + step)) c1 sent1
  /\ volume_down dev step c sent
     = set_volume dev (clamp 0 100 (current - step)) c1 sent1.
Proof.
  intros Hget Hd Hint Hcur Hstep.
  pose proof (truthy_dict_with_key d "volume" x Hd) as Ht.
  split.
  - unfold volume_up, bind at 1. rewrite Hget, Ht.
    unfold bind at 1, lift at 1, contains. rewrite Hd. simpl.
    unfold bind at 1, lift at 1, getitem. rewrite Hd. simpl. rewrite Hint.
    unfold clamp. f_equal. lia.
  - unfold volume_down, bind at 1. rewrite Hget, Ht.
    unfold bind at 1, lift at 1, contains. rewrite Hd. simpl.
    unfold bind at 1, lift at 1, getitem. rewrite Hd. simpl. rewrite Hint.
    unfold clamp. f_equal. lia.
Qed.

Lemma C7_volume_step_clamps_witness :
  (exists ok,
     volume_up (Samples.dev_volume "98") 3 Samples.client []
     = (Ok ok, Samples.client,
        [mkRequest GET "http://192.168.1.50:15081/levels/room" None;
         mkRequest PUT "http://192.168.1.50:15081/levels/room?volume=100" None]))
  /\ (exists ok,
        volume_down (Samples.dev_volume "98") 3 Samples.client []
        = (Ok ok, Samples.client,
           [mkRequest GET "http://192.168.1.50:15081/levels/room" None;
            mkRequest PUT "http://192.168.1.50:15081/levels/room?volume=95" None])).
Proof.
  destruct (C7_volume_step_clamps (Samples.dev_volume "98") Samples.client [] 3
              (<["volume" := VStr "98"]> (<["mute" := VStr "0"]> ∅))
              (VStr "98") 98 Samples.client
              [mkRequest GET "http://192.168.1.50:15081/levels/room" None])
    as [Hup Hdown].
  - vm_compute. reflexivity.
  - reflexivity.
  - reflexivity.
  - lia.
  - lia.
  - rewrite Hup, Hdown. split; eexists; vm_compute; reflexivity.
Defined.

(** Outside that domain the step is clamped on one side only: a target
    below zero reaches [set_volume], which rejects it and sends nothing
    more. *)
Lemma volume_up_negative_target_rejected :
  volume_up (Samples.dev_volume "3") (-5) Samples.client []
  = (Ok false, Samples.client,
     [mkRequest GET "http://192.168.1.50:15081/levels/room" None]).
Proof. vm_compute. reflexivity. Qed.

(** *** Source selection *)





(** *** The status refresh of the entity *)

(** [update_status] never raises. *)
Lemma update_status_returns dev p sent :
  exists p' sent', update_status dev p sent = (Ok tt, p', sent').
Proof.
  unfold update_status, bind at 1, read at 1.
  destruct (_connected p); simpl; [|now do 2 eexists].
  unfold try_except.
  destruct (update_status_body dev p sent) as [[[[]|e] p'] sent'];
    now do 2 eexists.
Qed.

(** C2 (amended). A refresh whose power fetch returns no data, or whose
    now-playing fetch returns no data after the power fetch said on,
    leaves volume, muted, media position, title, artist, album, artwork,
    source, repeat and shuffle as they were; the state becomes
    UNAVAILABLE in the first case and ON in the second. *)
Theorem C2_no_data_keeps_status dev p sent st :
  _connected p = true ->
  fetch_no_data dev p sent st ->
  exists p' sent',
    update_status dev p sent = (Ok tt, p', sent')
    /\ status_fields p' = status_fields p
    /\ _attr_state p' = st.
Proof.
  intros Hc Hf.
  unfold update_status, bind at 1, read at 1. rewrite Hc. simpl.
  unfold try_except, update_status_body, bind at 1, on_client at 1.
  destruct Hf as [c s Hp | c1 s1 status c2 s2 Hp Hs Ht].
  - rewrite Hp. do 2 eexists. split; [reflexivity|]. split; reflexivity.
  - rewrite Hp. unfold bind at 1, on_client at 1. simpl. rewrite Hs, Ht.
    do 2 eexists. split; [reflexivity|]. split; reflexivity.
Qed.

Lemma C2_no_data_keeps_status_witness :
  (exists p' sent',
     update_status Samples.dev_unreachable Samples.player [] = (Ok tt, p', sent')
     /\ status_fields p' = status_fields Samples.player
     /\ _attr_state p' = States.UNAVAILABLE)
  /\ (exists p' sent',
        update_status Samples.dev_nowplaying_down Samples.player []
        = (Ok tt, p', sent')
        /\ status_fields p' = status_fields Samples.player
        /\ _attr_state p' = States.ON).
Proof.
  split.
  - apply (C2_no_data_keeps_status Samples.dev_unreachable Samples.player []).
    + reflexivity.
    + eapply power_no_data. reflexivity.
  - apply (C2_no_data_keeps_status Samples.dev_nowplaying_down Samples.player []).
    + reflexivity.
    + eapply nowplaying_no_data; reflexivity.
Defined.

(** C2, as the specification words it, fails: the device is on and its
    now-playing endpoint answers 500; the refresh fails, the entity is
    shown ON and nothing marks it or its client as not available. *)
Lemma C2_failed_refresh_shows_on :
  ~ failed_refresh_keeps_status Samples.dev_nowplaying_down Samples.player [].
Proof.
  intros H.
  assert (Hf : refresh_fails Samples.dev_nowplaying_down Samples.player []).
  { left. exists States.ON. eapply nowplaying_no_data; reflexivity. }
  destruct (update_status Samples.dev_nowplaying_down Samples.player [])
    as [[r p'] sent'] eqn:E.
  destruct (H Hf r p' sent' E) as [_ Hst].
  vm_compute in E. injection E as _ <- _.
  destruct Hst as [Hst | [Hst | Hst]]; discriminate Hst.
Qed.

(** A refresh that raises after the volume was read has overwritten
    volume and muted before the entity is marked unavailable. *)
Lemma raising_refresh_overwrites_volume :
  (exists p0 sent0,
     update_status_body Samples.dev_bad_position Samples.player []
     = (Raise ValueError, p0, sent0))
  /\ exists p' sent',
       update_status Samples.dev_bad_position Samples.player []
       = (Ok tt, p', sent')
       /\ _attr_state p' = States.UNAVAILABLE
       /\ _attr_volume Samples.player = 10%Z /\ _attr_volume p' = 40%Z
       /\ _attr_muted Samples.player = false /\ _attr_muted p' = true.
Proof.
  split.
  - do 2 eexists. vm_compute. reflexivity.
  - do 2 eexists. split; [vm_compute; reflexivity|]. repeat split.
Qed.

(** ** Further properties *)

Import Hoare.

(** *** Rules for running a method *)

Lemma wp_ret {S A} (a : A) (self : S) sent Q :
  Q (Ok a) self sent -> wp (ret a) self sent Q.
Proof. exact (fun H => H). Qed.

Lemma wp_lift {S A} (r : result A) (self : S) sent Q :
  Q r self sent -> wp (lift r) self sent Q.
Proof. exact (fun H => H). Qed.

Lemma wp_modify {S} (f : S -> S) (self : S) sent Q :
  Q (Ok tt) (f self) sent -> wp (modify f) self sent Q.
Proof. exact (fun H => H). Qed.

Lemma wp_read {S A} (f : S -> A) (self : S) sent Q :
  Q (Ok (f self)) self sent -> wp (read f) self sent Q.
Proof. exact (fun H => H). Qed.

Lemma wp_bind {S A B} (m : io S A) (k : A -> io S B) (self : S) sent Q :
  wp m self sent
     (fun r self' sent' =>
        match r with
        | Ok a => wp (k a) self' sent' Q
        | Raise e => Q (Raise e) self' sent'
        end) ->
  wp (x <- m ;; k x) self sent Q.
Proof.
  unfold wp, bind. destruct (m self sent) as [[[a|e] self'] sent']; exact (fun H => H).
Qed.

Lemma wp_try_except {S A} (m h : io S A) (self : S) sent Q :
  wp m self sent
     (fun r self' sent' =>
        match r with
        | Ok a => Q (Ok a) self' sent'
        | Raise _ => wp h self' sent' Q
        end) ->
  wp (try_except m h) self sent Q.
Proof.
  unfold wp, try_except.
  destruct (m self sent) as [[[a|e] self'] sent']; exact (fun H => H).
Qed.

Lemma wp_consequence {S A} (m : io S A) (self : S) sent (P Q : _ -> _ -> _ -> Prop) :
  wp m self sent P ->
  (forall r self' sent', P r self' sent' -> Q r self' sent') ->
  wp m self sent Q.
Proof.
  unfold wp. destruct (m self sent) as [[r self'] sent']. intros H HPQ. now apply HPQ.
Qed.

Lemma wp_run {S A} (m : io S A) (self : S) sent Q :
  wp m self sent Q ->
  exists r self' sent', m self sent = (r, self', sent') /\ Q r self' sent'.
Proof.
  unfold wp. destruct (m self sent) as [[r self'] sent']. eauto.
Qed.

Lemma wp_on_client {A} (m : io NaimClient A) (p : NaimMediaPlayer) sent Q :
  wp m (MediaPlayer._client p) sent
     (fun r c sent' => Q r (MediaPlayer.set_client c p) sent') ->
  wp (MediaPlayer.on_client m) p sent Q.
Proof.
  unfold wp, MediaPlayer.on_client.
  destruct (m (MediaPlayer._client p) sent) as [[r c] sent']. exact (fun H => H).
Qed.

(** *** What a request adds to the log *)

Lemma request_log dev m endpoint c sent :
  exists v,
    _request dev m endpoint None c sent
    = (Ok v, c, (sent ++ sent_by c m endpoint)%list).
Proof.
  unfold sent_by. destruct (_session c) eqn:Hs.
  - now apply request_with_session.
  - exists VNone. rewrite app_nil_r. now apply request_no_session.
Qed.

Lemma wp_request dev m endpoint c sent Q :
  (forall v, Q (Ok v) c (sent ++ sent_by c m endpoint)%list) ->
  wp (_request dev m endpoint None) c sent Q.
Proof.
  intros H. unfold wp. destruct (request_log dev m endpoint c sent) as [v ->].
  apply H.
Qed.

(** *** Methods that leave the client as it is *)

Lemma keeps_ret {S A} (a : A) : keeps (@ret S A a).
Proof. intros self sent. exists (Ok a), []. now rewrite app_nil_r. Qed.

Lemma keeps_lift {S A} (r : result A) : keeps (@lift S A r).
Proof. intros self sent. exists r, []. now rewrite app_nil_r. Qed.

Lemma keeps_read {S A} (f : S -> A) : keeps (read f).
Proof. intros self sent. exists (Ok (f self)), []. now rewrite app_nil_r. Qed.

Lemma keeps_bind {S A B} (m : io S A) (k : A -> io S B) :
  keeps m -> (forall a, keeps (k a)) -> keeps (x <- m ;; k x).
Proof.
  intros Hm Hk self sent. unfold bind.
  destruct (Hm self sent) as (r & extra & ->).
  destruct r as [a|e].
  - destruct (Hk a self (sent ++ extra)%list) as (r' & extra' & ->).
    exists r', (extra ++ extra')%list. now rewrite app_assoc.
  - now exists (Raise e), extra.
Qed.

Lemma keeps_try_except {S A} (m h : io S A) :
  keeps m -> keeps h -> keeps (try_except m h).
Proof.
  intros Hm Hh self sent. unfold try_except.
  destruct (Hm self sent) as (r & extra & ->).
  destruct r as [a|e].
  - now exists (Ok a), extra.
  - destruct (Hh self (sent ++ extra)%list) as (r' & extra' & ->).
    exists r', (extra ++ extra')%list. now rewrite app_assoc.
Qed.

Lemma keeps_request dev m endpoint : keeps (_request dev m endpoint None).
Proof.
  intros c sent. destruct (request_log dev m endpoint c sent) as [v ->].
  now exists (Ok v), (sent_by c m endpoint).
Qed.

Lemma keeps_set_source_loop dev source inputs :
  keeps (set_source_loop dev source inputs).
Proof.
  induction inputs as [|x rest IH]; simpl.
  - apply keeps_bind; [apply keeps_request | intros; apply keeps_ret].
  - apply keeps_bind; [apply keeps_lift|]. intros [|]; [|exact IH].
    apply keeps_bind; [apply keeps_lift|]. intros sel.
    destruct (eq_str sel "1"); [|apply keeps_ret].
    apply keeps_bind; [apply keeps_request | intros; apply keeps_ret].
Qed.

(** Solves [keeps m] for a method built from requests and pure steps. *)
Ltac keeps_auto :=
  repeat first
    [ apply keeps_request
    | apply keeps_ret
    | apply keeps_lift
    | apply keeps_read
    | apply keeps_set_source_loop
    | progress unfold set_volume
    | apply keeps_bind; [|intros ?]
    | match goal with
      | |- keeps (if ?b then _ else _) => destruct b
      | |- keeps (match ?x with _ => _ end) => destruct x
      end ].

(** X1. No method of the client but [connect] and [disconnect] changes the
    client object, and none takes anything from the log of requests:
    the getters, the commands, also when they raise. *)
Theorem client_methods_keep_client dev :
  keeps (get_status dev) /\ keeps (get_system_info dev)
  /\ keeps (get_power_state dev) /\ keeps (get_volume dev)
  /\ keeps (power_on dev) /\ keeps (power_off dev)
  /\ (forall v, keeps (set_volume dev v))
  /\ (forall step, keeps (volume_up dev step))
  /\ (forall step, keeps (volume_down dev step))
  /\ keeps (mute dev) /\ keeps (unmute dev)
  /\ (forall source, keeps (set_source dev source))
  /\ keeps (play dev) /\ keeps (pause dev) /\ keeps (stop dev)
  /\ keeps (next_track dev) /\ keeps (previous_track dev)
  /\ (forall position, keeps (seek position))
  /\ (forall mode, keeps (set_repeat dev mode))
  /\ (forall enabled, keeps (set_shuffle dev enabled))
  /\ (forall balance, keeps (set_balance balance))
  /\ keeps Sources.get_sources /\ keeps Sources.get_source_names.
Proof.
  repeat match goal with |- _ /\ _ => split end; intros;
    unfold get_status, get_system_info, get_power_state, get_volume, power_on,
      power_off, set_volume, volume_up, volume_down, mute, unmute, set_source,
      play, pause, stop, next_track, previous_track, seek, set_repeat,
      set_shuffle, set_balance, Sources.get_sources, Sources.get_source_names,
      get_volume;
    keeps_auto.
Qed.

(** *** [connect] *)

Lemma connect_inv_request c sent n c' sent' endpoint :
  connect_inv c sent n c' sent' ->
  connect_inv c sent (S n) c' (sent' ++ sent_by c' GET endpoint)%list.
Proof.
  intros (Hs & Hh & Hp & Hb & Hi & Ha & extra & -> & Hg & Hn).
  repeat split; try assumption.
  unfold sent_by. rewrite Hs.
  eexists. split; [now rewrite <- app_assoc|]. split.
  - apply Forall_app. split; [assumption|]. now constructor.
  - rewrite length_app. simpl. lia.
Qed.

Lemma connect_inv_device_info c sent n c' sent' v :
  connect_inv c sent n c' sent' ->
  connect_inv c sent n (set_device_info v c') sent'.
Proof. exact (fun H => H). Qed.

Lemma connect_inv_inputs c sent n c' sent' v :
  connect_inv c sent n c' sent' ->
  connect_inv c sent n (set_available_inputs v c') sent'.
Proof. exact (fun H => H). Qed.

Lemma connect_inv_prefix c sent n c' sent' :
  connect_inv c sent n c' sent' ->
  connect_inv c sent n (set_api_base (base_url c' ++ "/naim") c') sent'.
Proof.
  intros (Hs & Hh & Hp & Hb & Hi & Ha & Hx).
  repeat split; try assumption. simpl. rewrite Hb. now right; right.
Qed.

Lemma connect_inv_no_prefix c sent n c' sent' :
  connect_inv c sent n c' sent' ->
  connect_inv c sent n (set_api_base (base_url c') c') sent'.
Proof.
  intros (Hs & Hh & Hp & Hb & Hi & Ha & Hx).
  repeat split; try assumption. simpl. rewrite Hb. now right; left.
Qed.

(** The loop that re-validates the prefix sends at most one GET per
    endpoint. *)
Lemma wp_probe_endpoints dev c sent n endpoints c' sent' :
  connect_inv c sent n c' sent' ->
  wp (probe_endpoints dev endpoints) c' sent'
     (fun r c'' sent'' =>
        exists b k, r = Ok b /\ k <= List.length endpoints
                    /\ connect_inv c sent (n + k) c'' sent'').
Proof.
  revert n sent'. induction endpoints as [|e rest IH]; intros n sent' Hinv.
  - apply wp_ret. exists false, 0. rewrite Nat.add_0_r. auto.
  - simpl probe_endpoints. apply wp_bind, wp_request. intros v.
    pose proof (connect_inv_request _ _ _ _ _ e Hinv) as Hinv'.
    destruct (truthy v).
    + apply wp_ret. exists true, 1. simpl.
      replace (n + 1) with (S n) by lia. split; [reflexivity|]. split; [lia|assumption].
    + eapply wp_consequence; [apply (IH _ _ Hinv')|].
      intros r c'' sent'' (b & k & -> & Hk & H). exists b, (S k).
      simpl. replace (n + S k) with (S n + k) by lia.
      split; [reflexivity|]. split; [lia|assumption].
Qed.

Lemma connect_inv_start c sent :
  connect_inv c sent 0 (if _session c then c else set_session true c) sent.
Proof.
  unfold connect_inv. destruct (_session c) eqn:Hs; simpl;
    repeat split; auto; exists []; now rewrite app_nil_r.
Qed.

Lemma connect_inv_forget c sent n c' sent' :
  connect_inv c sent n c' sent' ->
  connect_inv c sent n (set_is_connected (_is_connected c) c') sent'.
Proof.
  intros (Hs & Hh & Hp & Hb & Hi & Ha & Hx). repeat split; assumption.
Qed.

Lemma connect_inv_connected c sent n c' sent' :
  connect_inv c sent n c' sent' ->
  connect_inv c sent n
    (set_is_connected (_is_connected c) (set_is_connected true c')) sent'.
Proof.
  intros (Hs & Hh & Hp & Hb & Hi & Ha & Hx). repeat split; assumption.
Qed.

(** The part of [connect] after the prefix negotiation: the system
    information, the input list, and the connected flag. *)
Lemma wp_connect_tail dev c sent n c1 s1 (k : io NaimClient bool) :
  connect_inv c sent n c1 s1 ->
  k = (system_info <- _request dev GET "/system" None ;;
       (if truthy system_info then
          modify (set_device_info system_info) ;;;
          model <- lift (get system_info "model" (VStr "Unknown")) ;;
          h <- read host ;;
          hostname <- lift (get system_info "hostname"
                              (VStr ("Naim Device (" ++ h ++ ")"))) ;;
          ret tt
        else ret tt) ;;;
       inputs_data <- _request dev GET "/inputs" None ;;
       has_children <-
         (if truthy inputs_data then lift (contains "children" inputs_data)
          else ret false) ;;
       (if has_children then
          children <- lift (getitem inputs_data "children") ;;
          modify (set_available_inputs children) ;;;
          n <- lift (len children) ;;
          ret tt
        else modify (set_available_inputs (VList []))) ;;;
       modify (set_is_connected true) ;;;
       ret true) ->
  wp k c1 s1
     (fun r c' s' =>
        match r with
        | Ok b =>
            b = true /\ _is_connected c' = true
            /\ connect_inv c sent (n + 2)
                 (set_is_connected (_is_connected c) c') s'
        | Raise _ =>
            exists j, 1 <= j <= 2 /\ connect_inv c sent (n + j) c' s'
        end).
Proof.
  intros Hinv ->.
  apply wp_bind, wp_request. intros system_info.
  pose proof (connect_inv_request _ _ _ _ _ "/system" Hinv) as H1.
  set (s2 := (s1 ++ sent_by c1 GET "/system")%list) in *.
  apply wp_bind.
  assert (Hsys : wp (if truthy system_info then
          modify (set_device_info system_info) ;;;
          model <- lift (get system_info "model" (VStr "Unknown")) ;;
          h <- read host ;;
          hostname <- lift (get system_info "hostname"
                              (VStr ("Naim Device (" ++ h ++ ")"))) ;;
          ret tt
        else ret tt) c1 s2
        (fun r c' s' => s' = s2 /\ connect_inv c sent (S n) c' s2)).
  { destruct (truthy system_info); [|now apply wp_ret].
    apply wp_bind, wp_modify. cbv beta iota.
    apply wp_bind, wp_lift.
    destruct (get system_info "model" _); [|now split].
    apply wp_bind, wp_read. cbv beta iota.
    apply wp_bind, wp_lift.
    destruct (get system_info "hostname" _); [|now split].
    now apply wp_ret. }
  eapply wp_consequence; [exact Hsys|]. clear Hsys.
  intros r c2 s' [-> H2]. destruct r as [[]|e];
    [|exists 1; split; [lia|]; now replace (n + 1) with (S n) by lia].
  apply wp_bind, wp_request. intros inputs_data.
  pose proof (connect_inv_request _ _ _ _ _ "/inputs" H2) as H3.
  set (s3 := (s2 ++ sent_by c2 GET "/inputs")%list) in *.
  replace (S (S n)) with (n + 2) in H3 by lia.
  apply wp_bind.
  assert (Hhas : wp (if truthy inputs_data
                     then lift (contains "children" inputs_data)
                     else ret false) c2 s3
                   (fun r c' s' => c' = c2 /\ s' = s3)).
  { destruct (truthy inputs_data); [now apply wp_lift | now apply wp_ret]. }
  eapply wp_consequence; [exact Hhas|]. clear Hhas.
  intros r c' s' [-> ->]. destruct r as [has_children|e];
    [|exists 2; split; [lia | assumption]].
  apply wp_bind.
  assert (Hin : wp (if has_children then
          children <- lift (getitem inputs_data "children") ;;
          modify (set_available_inputs children) ;;;
          n <- lift (len children) ;;
          ret tt
        else modify (set_available_inputs (VList []))) c2 s3
        (fun r c' s' => s' = s3 /\ connect_inv c sent (n + 2) c' s3)).
  { destruct has_children; [|now apply wp_modify].
    apply wp_bind, wp_lift.
    destruct (getitem inputs_data "children") as [children|]; [|now split].
    apply wp_bind, wp_modify. cbv beta iota.
    apply wp_bind, wp_lift.
    destruct (len children); [|now split].
    now apply wp_ret. }
  eapply wp_consequence; [exact Hin|]. clear Hin.
  intros r c3 s' [-> H4]. destruct r as [[]|e];
    [|exists 2; split; [lia | assumption]].
  apply wp_bind, wp_modify. cbv beta iota. apply wp_ret.
  split; [reflexivity|]. split; [reflexivity|].
  now apply connect_inv_connected.
Qed.

(** What [connect] establishes, whatever the device answers. *)
Lemma wp_connect dev c sent :
  wp (connect dev) c sent
                (fun r c' sent' =>
                   exists b n,
                     r = Ok b /\ 1 <= n <= 6
                     /\ (b = true -> 3 <= n /\ _is_connected c' = true)
                     /\ (b = false -> _is_connected c' = _is_connected c)
                     /\ connect_inv c sent n
                          (set_is_connected (_is_connected c) c') sent').
Proof.
  unfold connect. apply wp_try_except.
    apply wp_bind, wp_read. cbv beta iota.
    apply wp_bind.
    assert (H0 : wp (if _session c then ret tt else modify (set_session true))
                   c sent
                   (fun r c' s' =>
                      r = Ok tt /\ s' = sent
                      /\ c' = (if _session c then c else set_session true c))).
    { destruct (_session c); [now apply wp_ret | now apply wp_modify]. }
    eapply wp_consequence; [exact H0|]. clear H0.
    intros r c0 s' (-> & -> & ->).
    pose proof (connect_inv_start c sent) as I0.
    set (c0 := if _session c then c else set_session true c) in *.
    apply wp_bind, wp_request. intros root_data.
    pose proof (connect_inv_request _ _ _ _ _ "/" I0) as I1.
    set (s1 := (sent ++ sent_by c0 GET "/")%list) in *.
    assert (Hfail : forall n c' s',
               1 <= n <= 6 -> connect_inv c sent n c' s' ->
               exists b m,
                 Ok false = Ok b /\ 1 <= m <= 6
                 /\ (b = true -> 3 <= m /\ _is_connected c' = true)
                 /\ (b = false -> _is_connected c' = _is_connected c)
                 /\ connect_inv c sent m
                      (set_is_connected (_is_connected c) c') s').
    { intros n c' s' Hn Hi. exists false, n. split; [reflexivity|].
      split; [exact Hn|]. split; [discriminate|]. split.
      - intros _. apply Hi.
      - now apply connect_inv_forget. }
    destruct (truthy root_data); cbn [negb].
    2:{ apply wp_ret. apply (Hfail 1); [lia | exact I1]. }
    apply wp_bind, wp_lift.
    destruct (prefix_marker root_data) as [detected|e].
    2:{ apply wp_ret. apply (Hfail 1); [lia | exact I1]. }
    apply wp_bind.
    assert (Hneg : wp (if detected then
          base <- read base_url ;;
          modify (set_api_base (base ++ "/naim")) ;;;
          confirmed <- probe_endpoints dev ["/nowplaying"; "/system"; "/inputs"] ;;
          if confirmed then ret tt else modify (set_api_base base)
        else ret tt) c0 s1
        (fun r c' s' =>
           exists k, r = Ok tt /\ k <= 3 /\ connect_inv c sent (1 + k) c' s')).
    { destruct detected.
      2:{ apply wp_ret. exists 0. split; [reflexivity|]. split; [lia | exact I1]. }
      apply wp_bind, wp_read. cbv beta iota.
      apply wp_bind, wp_modify. cbv beta iota.
      apply wp_bind.
      eapply wp_consequence;
        [apply (wp_probe_endpoints dev c sent 1), connect_inv_prefix, I1|].
      intros r c' s' (confirmed & k & -> & Hk & Hi). simpl in Hk.
      destruct confirmed.
      - apply wp_ret. exists k. split; [reflexivity|]. split; [exact Hk | exact Hi].
      - apply wp_modify. exists k. split; [reflexivity|]. split; [exact Hk|].
        assert (Hb : base_url c0 = base_url c').
        { destruct Hi as (_ & _ & _ & Hb' & _).
          destruct I1 as (_ & _ & _ & Hb0 & _). congruence. }
        rewrite Hb. now apply connect_inv_no_prefix. }
    eapply wp_consequence; [exact Hneg|]. clear Hneg.
    intros r c2 s2 (k & -> & Hk & I2).
    eapply wp_consequence; [apply (wp_connect_tail dev c sent (1 + k) c2 s2 _ I2 eq_refl)|].
    intros r c' s'. destruct r as [b|e].
    - intros (-> & Hc & Hi).
      exists true, (1 + k + 2). split; [reflexivity|]. split; [lia|].
      split; [intros _; split; [lia | exact Hc]|]. split; [discriminate | exact Hi].
    - intros (j & Hj & Hi). apply wp_ret. apply (Hfail (1 + k + j)); [lia | exact Hi].
Qed.


(** *** Fields a method leaves alone *)

Lemma preserves_ret {S A B} (f : S -> B) (a : A) : preserves f (ret a).
Proof. now intros self sent. Qed.

Lemma preserves_lift {S A B} (f : S -> B) (r : result A) : preserves f (lift r).
Proof. now intros self sent. Qed.

Lemma preserves_read {S A B} (f : S -> B) (g : S -> A) : preserves f (read g).
Proof. now intros self sent. Qed.

Lemma preserves_modify {S B} (f : S -> B) (g : S -> S) :
  (forall self, f (g self) = f self) -> preserves f (modify g).
Proof. intros H self sent. apply H. Qed.

Lemma preserves_bind {S A A' B} (f : S -> B) (m : io S A) (k : A -> io S A') :
  preserves f m -> (forall a, preserves f (k a)) -> preserves f (x <- m ;; k x).
Proof.
  intros Hm Hk self sent. unfold bind.
  specialize (Hm self sent).
  destruct (m self sent) as [[[a|e] self'] sent']; simpl in *; [|exact Hm].
  now rewrite Hk.
Qed.

Lemma preserves_try_except {S A B} (f : S -> B) (m h : io S A) :
  preserves f m -> preserves f h -> preserves f (try_except m h).
Proof.
  intros Hm Hh self sent. unfold try_except.
  specialize (Hm self sent).
  destruct (m self sent) as [[[a|e] self'] sent']; simpl in *; [exact Hm|].
  now rewrite Hh.
Qed.

Lemma preserves_keeps {S A B} (f : S -> B) (m : io S A) :
  keeps m -> preserves f m.
Proof.
  intros H self sent. destruct (H self sent) as (r & extra & ->). reflexivity.
Qed.

Lemma preserves_wp {S A B} (f : S -> B) (m : io S A) (self : S) sent :
  preserves f m -> wp m self sent (fun _ self' _ => f self' = f self).
Proof.
  intros H. unfold wp. specialize (H self sent).
  now destruct (m self sent) as [[r self'] sent'].
Qed.

(** Solves [preserves f m] for a method built from requests, pure steps
    and assignments to other fields. *)
Ltac preserves_auto :=
  repeat first
    [ apply preserves_keeps, keeps_request
    | apply preserves_ret
    | apply preserves_lift
    | apply preserves_read
    | apply preserves_modify; intros ?; reflexivity
    | apply preserves_bind; [|intros ?]
    | match goal with
      | |- preserves _ (if ?b then _ else _) => destruct b
      | |- preserves _ (match ?x with _ => _ end) => destruct x
      end ].

(** X3. When the root probe gets no answer, [connect] returns [False] after
    that one request; it has created the session and changed nothing
    else. *)
Theorem connect_fails_on_silent_root dev c sent root sent1 :
  let c0 := if _session c then c else set_session true c in
  _request dev GET "/" None c0 sent = (Ok root, c0, sent1) ->
  truthy root = false ->
  connect dev c sent = (Ok false, c0, sent1).
Proof.
  intros c0 Hroot Hfalsy. unfold connect, try_except.
  unfold bind at 1, read at 1. unfold bind at 1.
  assert (H0 : (if _session c then ret tt else modify (set_session true)) c sent
               = (Ok tt, c0, sent)).
  { unfold c0. now destruct (_session c). }
  rewrite H0. unfold bind at 1. rewrite Hroot, Hfalsy. reflexivity.
Qed.

Lemma connect_fails_on_silent_root_witness :
  connect Samples.dev_unreachable (Client.init Samples.address 15081) []
  = (Ok false, set_session true (Client.init Samples.address 15081),
     [mkRequest GET "http://192.168.1.50:15081/" None]).
Proof.
  apply (connect_fails_on_silent_root Samples.dev_unreachable
           (Client.init Samples.address 15081) [] VNone).
  - reflexivity.
  - reflexivity.
Defined.

(** X4. When the answer of the root probe does not carry the marker,
    [connect] leaves the base of the API as it was, whether it then
    succeeds or not: also a base with [/naim] left by an earlier
    connection. *)
Theorem connect_without_marker_keeps_base dev c sent root sent1 :
  let c0 := if _session c then c else set_session true c in
  _request dev GET "/" None c0 sent = (Ok root, c0, sent1) ->
  prefix_marker root = Ok false ->
  exists b c' sent',
    connect dev c sent = (Ok b, c', sent') /\ api_base c' = api_base c.
Proof.
  intros c0 Hroot Hmark.
  destruct (wp_run _ _ _ _ (wp_connect dev c sent))
    as (r & c' & sent' & Hrun & b & _ & -> & _).
  exists b, c', sent'. split; [exact Hrun|].
  assert (H : wp (connect dev) c sent (fun _ c' _ => api_base c' = api_base c)).
  { unfold connect. apply wp_try_except.
    apply wp_bind, wp_read. cbv beta iota.
    apply wp_bind.
    assert (H0 : wp (if _session c then ret tt else modify (set_session true))
                   c sent
                   (fun r c' s' => r = Ok tt /\ s' = sent /\ c' = c0)).
    { unfold c0. destruct (_session c); [now apply wp_ret | now apply wp_modify]. }
    eapply wp_consequence; [exact H0|]. clear H0.
    intros r c1 s' (-> & -> & ->).
    assert (Hc0 : api_base c0 = api_base c) by (unfold c0; now destruct (_session c)).
    apply wp_bind. unfold wp at 1. rewrite Hroot.
    destruct (truthy root); cbn [negb]; [|exact Hc0].
    apply wp_bind, wp_lift. rewrite Hmark.
    rewrite <- Hc0.
    eapply wp_consequence.
    - apply preserves_wp with (f := api_base).
      apply preserves_bind; [apply preserves_ret|]. intros _.
      preserves_auto.
    - cbv beta. intros [b0|e] c2 s2 Hb; [exact Hb|].
      apply wp_ret. exact Hb. }
  unfold wp in H. now rewrite Hrun in H.
Qed.

Lemma connect_without_marker_keeps_base_witness :
  exists b c' sent',
    connect MoreSamples.dev_plain
      (set_api_base "http://192.168.1.50:15081/naim" Samples.client) []
    = (Ok b, c', sent')
    /\ api_base c' = "http://192.168.1.50:15081/naim".
Proof.
  apply (connect_without_marker_keeps_base MoreSamples.dev_plain
           (set_api_base "http://192.168.1.50:15081/naim" Samples.client) []
           (VDict (<["hostname" := VStr "Uniti"]> ∅))
           [mkRequest GET "http://192.168.1.50:15081/" None]).
  - reflexivity.
  - reflexivity.
Defined.

(** *** [disconnect] and the cache *)

(** X5. [disconnect] sends nothing, clears the session and the connected
    flag, and keeps the cached input list, the cached system
    information and the base of the API; a second [disconnect] changes
    nothing more.  [get_system_info] still answers from a cached
    system information afterwards, without a request. *)
Theorem disconnect_keeps_cache dev c sent :
  exists c',
    disconnect c sent = (Ok tt, c', sent)
    /\ _session c' = false /\ _is_connected c' = false
    /\ _available_inputs c' = _available_inputs c
    /\ _device_info c' = _device_info c
    /\ api_base c' = api_base c
    /\ disconnect c' sent = (Ok tt, c', sent)
    /\ (truthy (_device_info c) = true ->
        get_system_info dev c' sent = (Ok (_device_info c), c', sent)).
Proof.
  eexists. split; [reflexivity|].
  repeat split.
  intros Ht. unfold get_system_info, bind, read. simpl. now rewrite Ht.
Qed.

Lemma disconnect_keeps_cache_witness :
  exists c',
    disconnect MoreSamples.cached [] = (Ok tt, c', [])
    /\ get_system_info Samples.dev_unreachable c' []
       = (Ok (VDict (<["hostname" := VStr "Uniti"]> ∅)), c', []).
Proof.
  destruct (disconnect_keeps_cache Samples.dev_unreachable MoreSamples.cached [])
    as (c' & Hd & _ & _ & _ & _ & _ & _ & Hg).
  exists c'. split; [exact Hd|]. apply Hg. reflexivity.
Defined.

(** *** [set_repeat] *)



(** *** The last segment of a path *)

Lemma split_not_nil sep s : split sep s <> [].
Proof.
  destruct s as [|c s]; simpl; [discriminate|].
  destruct (Ascii.eqb c sep); [discriminate|].
  destruct (split sep s); discriminate.
Qed.

Lemma str_in_char_cons sep c s :
  str_in (String sep "") (String c s)
  = Ascii.eqb sep c || str_in (String sep "") s.
Proof.
  cbn [str_in startswith]. now rewrite andb_true_r.
Qed.

Lemma split_without_sep sep s :
  str_in (String sep "") s = false -> split sep s = [s].
Proof.
  induction s as [|c s IH]; [reflexivity|].
  rewrite str_in_char_cons. intros H. apply orb_false_iff in H as [Hc Hs].
  cbn [split]. rewrite Ascii.eqb_sym, Hc. now rewrite (IH Hs).
Qed.

Lemma split_with_sep sep s :
  str_in (String sep "") s = true ->
  exists h x t, split sep s = h :: x :: t.
Proof.
  induction s as [|c s IH]; [discriminate|].
  rewrite str_in_char_cons. intros H. cbn [split].
  destruct (Ascii.eqb_spec c sep) as [->|Hne].
  - destruct (split sep s) as [|x t] eqn:E; [now apply split_not_nil in E|].
    now exists "", x, t.
  - rewrite Ascii.eqb_sym in H.
    destruct (Ascii.eqb_spec c sep) as [|_]; [contradiction|]. simpl in H.
    destruct (IH H) as (h & x & t & ->). now exists (String c h), x, t.
Qed.

(** The last segment of [c :: s] is that of [s] when [c] is the
    separator or [s] has one, and the whole text otherwise. *)
Lemma last_segment_cons sep c s :
  last_item (split sep (String c s))
  = if Ascii.eqb c sep || str_in (String sep "") s
    then last_item (split sep s) else String c s.
Proof.
  unfold last_item. cbn [split].
  destruct (Ascii.eqb c sep) eqn:Hc; cbn [orb].
  - destruct (split sep s) as [|x t] eqn:E; [now apply split_not_nil in E|].
    reflexivity.
  - destruct (str_in (String sep "") s) eqn:Hs.
    + destruct (split_with_sep sep s Hs) as (h & x & t & ->). reflexivity.
    + now rewrite (split_without_sep sep s Hs).
Qed.


(** The last segment has no separator. *)
Lemma last_segment_free sep s :
  str_in (String sep "") (last_item (split sep s)) = false.
Proof.
  induction s as [|c s IH]; [reflexivity|].
  rewrite last_segment_cons.
  destruct (Ascii.eqb c sep) eqn:Hc; cbn [orb]; [exact IH|].
  destruct (str_in (String sep "") s) eqn:Hs; [exact IH|].
  rewrite str_in_char_cons, Hs, Ascii.eqb_sym, Hc. reflexivity.
Qed.

(** The last segment is not longer than the text, and shorter when the
    text has a separator. *)
Lemma last_segment_length sep s :
  String.length (last_item (split sep s)) <= String.length s
  /\ (str_in (String sep "") s = true ->
      String.length (last_item (split sep s)) < String.length s).
Proof.
  induction s as [|c s [IH1 IH2]]; [split; [reflexivity | discriminate]|].
  rewrite last_segment_cons, str_in_char_cons.
  destruct (Ascii.eqb c sep) eqn:Hc; cbn [orb String.length].
  - split; [lia|]. intros _. lia.
  - rewrite Ascii.eqb_sym, Hc. cbn [orb].
    destruct (str_in (String sep "") s) eqn:Hs.
    + split; [lia|]. intros _. lia.
    + split; [reflexivity | discriminate].
Qed.

Lemma last_segment_differs sep s :
  str_in (String sep "") s = true -> last_item (split sep s) <> s.
Proof.
  intros H E. destruct (last_segment_length sep s) as [_ Hl].
  specialize (Hl H). rewrite E in Hl. lia.
Qed.


Lemma startswith_app p s : startswith p (p ++ s) = true.
Proof.
  induction p as [|a p IH]; [reflexivity|].
  change (startswith (String a p) (String a (p ++ s)) = true).
  cbn [startswith]. now rewrite Ascii.eqb_refl, IH.
Qed.

Lemma startswith_decompose p s :
  startswith p s = true -> exists t, s = p ++ t.
Proof.
  revert s. induction p as [|a p IH]; intros s H; [now exists s|].
  destruct s as [|b s]; [discriminate|]. cbn [startswith] in H.
  apply andb_true_iff in H as [Hab Hp]. apply Ascii.eqb_eq in Hab. subst b.
  destruct (IH s Hp) as [t ->]. now exists t.
Qed.

Lemma startswith_inputs_has_slash s :
  startswith "inputs/" s = true -> str_in "/" s = true.
Proof.
  intros H. destruct (startswith_decompose _ _ H) as [t ->]. reflexivity.
Qed.

(** *** The two normalizations of a source *)

(** X7. On a text, the normalizer of the client and the status refresh of
    the entity give the same source exactly when the text starts with
    [inputs/] or has no slash at all; neither raises. *)
Theorem source_normalizers_agree s :
  source_id_of (VStr s) = source_of_ussi (VStr s)
  <-> (startswith "inputs/" s = true \/ str_in "/" s = false).
Proof.
  unfold source_id_of, source_of_ussi, contains, and_then.
  destruct (str_in "/" s) eqn:Hs; destruct (startswith "inputs/" s) eqn:Hp.
  - split; [now left | reflexivity].
  - split.
    + intros E. injection E as E. now apply last_segment_differs in E.
    + intros [H|H]; discriminate H.
  - apply startswith_inputs_has_slash in Hp. congruence.
  - split; [now right | reflexivity].
Qed.

(** *** The source lists *)

Import Sources.

Lemma source_of_input_listed e s :
  source_of_input e = Ok (Some s) <-> listed_as e s.
Proof.
  unfold source_of_input, listed_as. split.
  - intros H. destruct e as [| | | | |d]; try discriminate H.
    cbn [get and_then] in H.
    destruct (eq_str (dget d "selectable" VNone) "1") eqn:Hsel; [|discriminate].
    destruct (eq_str (dget d "disabled" VNone) "1") eqn:Hdis; [discriminate|].
    cbn [negb] in H.
    destruct (dget d "ussi" (VStr "")) as [| | |u| |] eqn:Hu; try discriminate H.
    destruct (startswith "inputs/" u) eqn:Hp; [|discriminate].
    injection H as <-. now exists d, u.
  - intros (d & u & -> & Hsel & Hdis & Hu & Hp & ->).
    cbn [get and_then]. now rewrite Hsel, Hdis, Hu, Hp.
Qed.

Lemma get_sources_loop_spec inputs : forall acc l,
  get_sources_loop acc inputs = Ok l ->
  forall s, In s l <-> In s acc \/ exists e, In e inputs /\ listed_as e s.
Proof.
  induction inputs as [|x rest IH]; intros acc l H s.
  - injection H as <-. split; [now left|].
    intros [H|(e & [] & _)]. exact H.
  - cbn [get_sources_loop] in H.
    destruct (source_of_input x) as [[sid|]|] eqn:Hx; cbn [and_then] in H;
      [| |discriminate].
    + rewrite (IH _ _ H s), in_app_iff. apply source_of_input_listed in Hx.
      split.
      * intros [[Ha|[<-|[]]]|(e & He & Hl)]; [now left | |].
        -- right. exists x. split; [now left | exact Hx].
        -- right. exists e. split; [now right | exact Hl].
      * intros [Ha|(e & [<-|He] & Hl)]; [now left; left | |].
        -- left. right. left.
           destruct Hx as (d & u & Hd & _ & _ & Hu & _ & ->).
           destruct Hl as (d' & u' & Hd' & _ & _ & Hu' & _ & ->).
           congruence.
        -- right. now exists e.
    + rewrite (IH _ _ H s). split.
      * intros [Ha|(e & He & Hl)]; [now left|].
        right. exists e. split; [now right | exact Hl].
      * intros [Ha|(e & [<-|He] & Hl)]; [now left | |].
        -- apply source_of_input_listed in Hl. congruence.
        -- right. now exists e.
Qed.

(** X8. [get_sources] never returns an empty list and never a source with a
    slash.  When some cached input is listed, the result holds exactly
    the sources of the listed inputs; when none is, it is the default
    list. *)
Theorem get_sources_lists_selectable_inputs c sent inputs l c' sent' :
  iter (_available_inputs c) = Ok inputs ->
  get_sources c sent = (Ok l, c', sent') ->
  l <> []
  /\ (forall s, In s l -> str_in "/" s = false)
  /\ ((exists e s, In e inputs /\ listed_as e s) ->
      forall s, In s l <-> exists e, In e inputs /\ listed_as e s)
  /\ ((forall e s, In e inputs -> ~ listed_as e s) -> l = default_sources).
Proof.
  intros Hi H. unfold get_sources, bind, read, lift, ret in H. rewrite Hi in H.
  destruct (get_sources_loop [] inputs) as [sources|] eqn:Hloop; [|discriminate].
  pose proof (get_sources_loop_spec inputs [] sources Hloop) as Hspec.
  assert (Hslash : forall s, In s sources -> str_in "/" s = false).
  { intros s Hs. apply Hspec in Hs as [[]|(e & _ & d & u & _ & _ & _ & _ & _ & ->)].
    apply last_segment_free. }
  destruct sources as [|x xs]; injection H as <- _ _.
  - split; [discriminate|]. split.
    { intros s Hs. unfold default_sources in Hs. simpl in Hs.
      repeat destruct Hs as [<-|Hs]; try reflexivity. destruct Hs. }
    split; [|reflexivity].
    intros (e & s & He & Hl). exfalso.
    apply (proj2 (Hspec s)). right. now exists e.
  - split; [discriminate|]. split; [exact Hslash|]. split.
    + intros _ s. rewrite (Hspec s). split; [intros [[]|H]; exact H | now right].
    + intros Hnone. exfalso.
      destruct (proj1 (Hspec x) (or_introl eq_refl)) as [[]|(e & He & Hl)].
      exact (Hnone e x He Hl).
Qed.

Lemma get_sources_lists_selectable_inputs_witness :
  get_sources (set_available_inputs MoreSamples.inputs_mixed Samples.client) []
  = (Ok ["radio"],
     set_available_inputs MoreSamples.inputs_mixed Samples.client, [])
  /\ ["radio"] <> []
  /\ (forall s, In s ["radio"] -> str_in "/" s = false).
Proof.
  split; [reflexivity|].
  destruct (get_sources_lists_selectable_inputs
              (set_available_inputs MoreSamples.inputs_mixed Samples.client) []
              [VDict (<["ussi" := VStr "inputs/spotify"]>
                       (<["name" := VStr "Spotify"]>
                       (<["selectable" := VStr "1"]>
                       (<["disabled" := VStr "1"]> ∅))));
               Samples.input "inputs/radio" "Internet Radio" "1"]
              ["radio"]
              (set_available_inputs MoreSamples.inputs_mixed Samples.client) []
              eq_refl eq_refl) as (H1 & H2 & _).
  split; [exact H1 | exact H2].
Defined.




Lemma name_of_input_keeps_keys m e names k :
  name_of_input m e = Ok names -> is_Some (m !! k) -> is_Some (names !! k).
Proof.
  unfold name_of_input. intros H Hk.
  destruct e as [| | | | |d]; try discriminate H. cbn [get and_then] in H.
  destruct (dget d "ussi" (VStr "")) as [| | |u| |]; try discriminate H.
  destruct (startswith "inputs/" u); injection H as <-; [|exact Hk].
  destruct (decide (last_item (split "/" u) = k)) as [<-|Hne].
  - rewrite lookup_insert_eq. eauto.
  - now rewrite lookup_insert_ne.
Qed.

Lemma name_of_input_adds_listed m e names s :
  name_of_input m e = Ok names -> listed_as e s -> is_Some (names !! s).
Proof.
  unfold name_of_input. intros H (d & u & -> & _ & _ & Hu & Hp & ->).
  cbn [get and_then] in H. rewrite Hu, Hp in H. injection H as <-.
  rewrite lookup_insert_eq. eauto.
Qed.

Lemma names_loop_keeps_keys inputs : forall m names k,
  get_source_names_loop m inputs = Ok names ->
  is_Some (m !! k) -> is_Some (names !! k).
Proof.
  induction inputs as [|x rest IH]; intros m names k H Hk.
  - now injection H as <-.
  - cbn [get_source_names_loop] in H.
    destruct (name_of_input m x) as [m'|] eqn:Hx; [|discriminate].
    cbn [and_then] in H. apply (IH _ _ _ H).
    exact (name_of_input_keeps_keys _ _ _ _ Hx Hk).
Qed.

Lemma names_loop_covers inputs : forall m names e s,
  get_source_names_loop m inputs = Ok names ->
  In e inputs -> listed_as e s -> is_Some (names !! s).
Proof.
  induction inputs as [|x rest IH]; intros m names e s H He Hl; [destruct He|].
  cbn [get_source_names_loop] in H.
  destruct (name_of_input m x) as [m'|] eqn:Hx; [|discriminate].
  cbn [and_then] in H. destruct He as [<-|He].
  - apply (names_loop_keeps_keys _ _ _ _ H).
    exact (name_of_input_adds_listed _ _ _ _ Hx Hl).
  - exact (IH _ _ _ _ H He Hl).
Qed.

(** X10. Every source [get_sources] returns has a display name in
    [get_source_names], when some cached input is listed and when the
    cache is empty (both fall back to their defaults then). *)
Theorem source_names_cover_sources c sent inputs l names c1 s1 c2 s2 :
  iter (_available_inputs c) = Ok inputs ->
  get_sources c sent = (Ok l, c1, s1) ->
  get_source_names c sent = (Ok names, c2, s2) ->
  (exists e s, In e inputs /\ listed_as e s) \/ inputs = [] ->
  forall s, In s l -> is_Some (names !! s).
Proof.
  intros Hi Hg Hn Hcase s Hin.
  unfold get_sources, bind, read, lift, ret in Hg. rewrite Hi in Hg.
  unfold get_source_names, bind, read, lift, ret in Hn. rewrite Hi in Hn.
  destruct Hcase as [(e0 & s0 & He0 & Hl0) | ->].
  - destruct (get_sources_loop [] inputs) as [sources|] eqn:Hloop; [|discriminate].
    destruct (get_source_names_loop ∅ inputs) as [m|] eqn:Hnames; [|discriminate].
    pose proof (get_sources_loop_spec inputs [] sources Hloop) as Hspec.
    assert (Hl : l = sources).
    { destruct sources as [|x xs]; [|now injection Hg as <- _ _].
      exfalso. apply (proj2 (Hspec s0)). right. now exists e0. }
    subst l. apply Hspec in Hin as [[]|(e & He & Hl)].
    pose proof (names_loop_covers _ _ _ _ _ Hnames He Hl) as Hs.
    assert (Ht : truthy (VDict m) = true).
    { destruct Hs as [x Hx]. exact (truthy_dict_with_key m s x Hx). }
    rewrite Ht in Hn. now injection Hn as <- _ _.
  - cbn in Hg, Hn. injection Hg as <- _ _. injection Hn as <- _ _.
    unfold default_sources in Hin. simpl in Hin.
    repeat destruct Hin as [<-|Hin]; try (vm_compute; eauto). destruct Hin.
Qed.

Lemma source_names_cover_sources_witness :
  is_Some ((<["spotify" := VStr "Spotify"]>
              (<["radio" := VStr "Internet Radio"]> ∅) : gmap string value)
           !! "radio").
Proof.
  refine (source_names_cover_sources
           (set_available_inputs MoreSamples.inputs_mixed Samples.client) []
           [VDict (<["ussi" := VStr "inputs/spotify"]>
                    (<["name" := VStr "Spotify"]>
                    (<["selectable" := VStr "1"]>
                    (<["disabled" := VStr "1"]> ∅))));
            Samples.input "inputs/radio" "Internet Radio" "1"]
           ["radio"]
           (<["spotify" := VStr "Spotify"]>
              (<["radio" := VStr "Internet Radio"]> ∅))
           (set_available_inputs MoreSamples.inputs_mixed Samples.client) []
           (set_available_inputs MoreSamples.inputs_mixed Samples.client) []
           _ _ _ _ "radio" _).
  - reflexivity.
  - reflexivity.
  - vm_compute. reflexivity.
  - left. exists (Samples.input "inputs/radio" "Internet Radio" "1"), "radio".
    split; [right; now left|].
    eexists _, "inputs/radio". repeat split; reflexivity.
  - now left.
Defined.

(** *** The status refresh only reads *)

Lemma silent_ret {S A} (a : A) : silent (@ret S A a).
Proof. now intros self sent. Qed.

Lemma silent_lift {S A} (r : result A) : silent (@lift S A r).
Proof. now intros self sent. Qed.

Lemma silent_modify {S} (g : S -> S) : silent (modify g).
Proof. now intros self sent. Qed.

Lemma silent_bind {S A B} (m : io S A) (k : A -> io S B) :
  silent m -> (forall a, silent (k a)) -> silent (x <- m ;; k x).
Proof.
  intros Hm Hk self sent. unfold bind. specialize (Hm self sent).
  destruct (m self sent) as [[[a|e] self'] sent']; simpl in *; [|exact Hm].
  now rewrite Hk.
Qed.

(** Solves [silent m] for a method built from pure steps and
    assignments. *)
Ltac silent_auto :=
  repeat first
    [ apply silent_ret
    | apply silent_lift
    | apply silent_modify
    | apply silent_bind; [|intros ?]
    | match goal with
      | |- silent (if ?b then _ else _) => destruct b
      end ].

Lemma wp_pure_steps {A} (m : io NaimMediaPlayer A) (p : NaimMediaPlayer) sent :
  silent m ->
  preserves MediaPlayer._client m ->
  preserves MediaPlayer._connected m ->
  wp m p sent
     (fun _ p' sent' =>
        sent' = sent
        /\ MediaPlayer._client p' = MediaPlayer._client p
        /\ MediaPlayer._connected p' = MediaPlayer._connected p).
Proof.
  intros Hs Hc Hn. unfold wp.
  specialize (Hs p sent). specialize (Hc p sent). specialize (Hn p sent).
  now destruct (m p sent) as [[r p'] sent'].
Qed.

Lemma wp_get_power_state dev c sent Q :
  (forall r, Q r c (sent ++ sent_by c GET "/power")%list) ->
  wp (get_power_state dev) c sent Q.
Proof.
  intros H. unfold get_power_state. apply wp_bind, wp_request. intros v.
  destruct (truthy v); [|now apply wp_ret].
  apply wp_bind, wp_lift. destruct (and_then _ _); [|apply H].
  apply wp_bind, wp_lift. destruct (and_then _ _); [|apply H].
  apply wp_ret, H.
Qed.

(** What the refresh keeps while it runs on the entity [p] with the log
    [sent]: the client and the connected flag are those of [p] and the
    log has grown by the first [k] requests of a refresh. *)
Lemma update_status_body_reads dev p sent :
  wp (update_status_body dev) p sent
     (fun _ p' sent' =>
        MediaPlayer._client p' = MediaPlayer._client p
        /\ MediaPlayer._connected p' = MediaPlayer._connected p
        /\ exists k,
             sent' = (sent ++ take k (refresh_requests (MediaPlayer._client p)))%list).
Proof.
  set (c := MediaPlayer._client p).
  assert (K1 : forall s, (sent ++ sent_by c GET "/power")%list = s ->
               exists k, s = (sent ++ take k (refresh_requests c))%list).
  { intros s <-. exists (List.length (sent_by c GET "/power")).
    unfold refresh_requests. now rewrite take_app_length. }
  assert (K2 : forall s,
               ((sent ++ sent_by c GET "/power") ++ sent_by c GET "/nowplaying")%list = s ->
               exists k, s = (sent ++ take k (refresh_requests c))%list).
  { intros s <-.
    exists (List.length (sent_by c GET "/power" ++ sent_by c GET "/nowplaying")).
    unfold refresh_requests. rewrite (app_assoc (sent_by c GET "/power")).
    now rewrite take_app_length, !app_assoc. }
  assert (K3 : forall s,
               (((sent ++ sent_by c GET "/power") ++ sent_by c GET "/nowplaying")
                ++ sent_by c GET "/levels/room")%list = s ->
               exists k, s = (sent ++ take k (refresh_requests c))%list).
  { intros s <-. exists (List.length (refresh_requests c)).
    rewrite firstn_all. unfold refresh_requests. now rewrite !app_assoc. }
  unfold update_status_body.
  apply wp_bind, wp_on_client, wp_get_power_state. intros [[[|]|]|e]; fold c.
  - (* the device is on *)
    apply wp_bind, wp_on_client. unfold get_status. apply wp_request. intros status.
    cbn [MediaPlayer._client MediaPlayer.set_client]. fold c.
    destruct (truthy status); cbn [negb];
      [|apply wp_modify; split; [reflexivity|]; split; [reflexivity|]; now apply K2].
    apply wp_bind, wp_modify. cbv beta iota.
    apply wp_bind, wp_lift. destruct (get status "transportState" _) as [ts|];
      [|split; [reflexivity|]; split; [reflexivity|]; now apply K2].
    apply wp_bind, wp_modify. cbv beta iota.
    apply wp_bind, wp_on_client. unfold get_volume. apply wp_request.
    intros volume_info. cbn [MediaPlayer._client MediaPlayer.set_client]. fold c.
    eapply wp_consequence.
    + apply wp_pure_steps.
      * silent_auto.
      * preserves_auto.
      * preserves_auto.
    + cbv beta. intros _ p' s' (-> & Hc & Hn).
      split; [exact Hc|]. split; [exact Hn|]. now apply K3.
  - apply wp_modify. split; [reflexivity|]. split; [reflexivity|]. now apply K1.
  - apply wp_modify. split; [reflexivity|]. split; [reflexivity|]. now apply K1.
  - split; [reflexivity|]. split; [reflexivity|]. now apply K1.
Qed.

(** X11. A status refresh never raises and only reads: it sends at most the
    three GETs of [/power], [/nowplaying] and [/levels/room], in that
    order and stopping at the first that fails, and nothing at all when
    the entity is not connected or the client has no session.  It
    changes neither the client nor the connected flag. *)
Theorem update_status_only_reads dev p sent :
  exists p' extra,
    update_status dev p sent = (Ok tt, p', (sent ++ extra)%list)
    /\ (exists k, extra = take k (refresh_requests (MediaPlayer._client p)))
    /\ Forall (fun q => req_method q = GET) extra
    /\ List.length extra <= 3
    /\ MediaPlayer._client p' = MediaPlayer._client p
    /\ MediaPlayer._connected p' = MediaPlayer._connected p
    /\ (MediaPlayer._connected p = false -> p' = p /\ extra = [])
    /\ (_session (MediaPlayer._client p) = false -> extra = []).
Proof.
  set (c := MediaPlayer._client p).
  assert (Hreq : Forall (fun q => req_method q = GET) (refresh_requests c)
                 /\ List.length (refresh_requests c) <= 3
                 /\ (_session c = false -> refresh_requests c = [])).
  { unfold refresh_requests, sent_by. destruct (_session c); simpl.
    - split; [repeat constructor|]. split; [lia | discriminate].
    - split; [constructor|]. split; [lia | reflexivity]. }
  destruct Hreq as (Hget & Hlen & Hnil).
  assert (Htake : forall k,
             Forall (fun q => req_method q = GET) (take k (refresh_requests c))
             /\ List.length (take k (refresh_requests c)) <= 3
             /\ (_session c = false -> take k (refresh_requests c) = [])).
  { intros k. split; [now apply Forall_take|]. split.
    - rewrite length_take. lia.
    - intros Hs. rewrite (Hnil Hs). now destruct k. }
  unfold update_status, bind at 1, read at 1.
  destruct (MediaPlayer._connected p) eqn:Hconn; cbn [negb].
  - pose proof (update_status_body_reads dev p sent) as H.
    unfold wp in H. unfold try_except.
    destruct (update_status_body dev p sent) as [[r p'] sent'].
    destruct H as (Hc & Hn & k & ->). fold c. fold c in Hc.
    destruct (Htake k) as (H1 & H2 & H3).
    destruct r as [[]|e].
    + exists p', (take k (refresh_requests c)).
      repeat split; eauto; try congruence.
    + exists (set_attr_state States.UNAVAILABLE p'), (take k (refresh_requests c)).
      repeat split; eauto; try congruence.
  - exists p, []. rewrite app_nil_r.
    repeat split; auto. now exists 0.
Qed.

(** *** The state a refresh shows *)

Lemma preserves_on_client {A B} (f : NaimMediaPlayer -> B) (m : io NaimClient A) :
  (forall c p, f (MediaPlayer.set_client c p) = f p) ->
  preserves f (MediaPlayer.on_client m).
Proof.
  intros H p sent. unfold MediaPlayer.on_client.
  destruct (m (MediaPlayer._client p) sent) as [[r c] s]. apply H.
Qed.

Lemma state_of_transport_shown ts :
  In (state_of_transport ts)
     [States.OFF; States.ON; States.PLAYING; States.PAUSED; States.BUFFERING].
Proof.
  unfold state_of_transport.
  repeat match goal with |- context [if ?b then _ else _] => destruct b end;
    simpl; auto 6.
Qed.

Lemma update_status_body_state dev p sent :
  wp (update_status_body dev) p sent
     (fun r p' _ =>
        match r with
        | Ok _ =>
            ((get_power_state dev (MediaPlayer._client p) sent).1.1 = Ok None
             /\ _attr_state p' = States.UNAVAILABLE)
            \/ ((get_power_state dev (MediaPlayer._client p) sent).1.1 <> Ok None
                /\ In (_attr_state p')
                     [States.OFF; States.ON; States.PLAYING; States.PAUSED;
                      States.BUFFERING])
        | Raise _ => True
        end).
Proof.
  unfold update_status_body. apply wp_bind, wp_on_client. unfold wp at 1.
  destruct (get_power_state dev (MediaPlayer._client p) sent) as [[r c] s1].
  cbn [fst]. destruct r as [[[|]|]|e]; [| | |exact I].
  - apply wp_bind, wp_on_client. unfold get_status. apply wp_request. intros status.
    destruct (truthy status); cbn [negb].
    2:{ apply wp_modify. right. split; [discriminate|]. simpl. auto. }
    apply wp_bind, wp_modify. cbv beta iota.
    apply wp_bind, wp_lift. destruct (get status "transportState" _) as [ts|];
      [|exact I].
    apply wp_bind, wp_modify. cbv beta iota.
    eapply wp_consequence.
    + apply preserves_wp with (f := _attr_state).
      apply preserves_bind; [now apply preserves_on_client|]. intros ?.
      preserves_auto.
    + cbv beta. intros [[]|e] p' _ Hst; [|exact I].
      right. split; [discriminate|]. rewrite Hst. apply state_of_transport_shown.
  - apply wp_modify. right. split; [discriminate|]. simpl. auto.
  - apply wp_modify. left. split; reflexivity.
Qed.

(** X12. After the refresh of a connected entity the state is UNAVAILABLE
    exactly when the power fetch returned no data or the refresh raised;
    otherwise it is one of OFF, ON, PLAYING, PAUSED and BUFFERING.  The
    refresh never shows UNKNOWN or STANDBY. *)
Theorem refresh_shows_unavailable_iff dev p sent p' sent' :
  MediaPlayer._connected p = true ->
  update_status dev p sent = (Ok tt, p', sent') ->
  (_attr_state p' = States.UNAVAILABLE
   <-> ((get_power_state dev (MediaPlayer._client p) sent).1.1 = Ok None
        \/ exists e, (update_status_body dev p sent).1.1 = Raise e))
  /\ In (_attr_state p')
       [States.UNAVAILABLE; States.OFF; States.ON; States.PLAYING;
        States.PAUSED; States.BUFFERING].
Proof.
  intros Hc H. unfold update_status, bind at 1, read at 1 in H.
  rewrite Hc in H. cbn [negb] in H. unfold try_except in H.
  pose proof (update_status_body_state dev p sent) as Hb. unfold wp in Hb.
  destruct (update_status_body dev p sent) as [[r p0] s0]. cbn [fst].
  destruct r as [[]|e].
  - injection H as <- <-.
    destruct Hb as [[Hn Hs]|[Hn Hs]].
    + split; [|rewrite Hs; now left]. split; [now left | intros _; exact Hs].
    + split; [|now right]. split.
      * intros Hu. rewrite Hu in Hs. simpl in Hs.
        repeat destruct Hs as [Hs|Hs]; try discriminate Hs. destruct Hs.
      * intros [Hp|[e He]]; [contradiction | discriminate He].
  - injection H as <- <-. split; [|now left].
    split; [intros _; right; now exists e | reflexivity].
Qed.

Lemma refresh_shows_unavailable_iff_witness :
  exists p' sent',
    update_status Samples.dev_bad_position Samples.player [] = (Ok tt, p', sent')
    /\ _attr_state p' = States.UNAVAILABLE.
Proof.
  destruct (update_status Samples.dev_bad_position Samples.player [])
    as [[[[]|e] p'] sent'] eqn:E.
  - exists p', sent'. split; [reflexivity|].
    apply (proj1 (refresh_shows_unavailable_iff Samples.dev_bad_position
                    Samples.player [] p' sent' eq_refl E)).
    right. exists ValueError. vm_compute. reflexivity.
  - exfalso.
    destruct (update_status_returns Samples.dev_bad_position Samples.player [])
      as (p0 & s0 & H0).
    rewrite H0 in E. discriminate E.
Defined.

(** *** The remote entity *)

Lemma eq_str_true v s : eq_str v s = true -> v = VStr s.
Proof.
  destruct v; simpl; try discriminate.
  intros H. apply String.eqb_eq in H. now subst.
Qed.

Lemma remote_run_on_client {A} (m : io NaimClient A) r sent res sent' :
  m (Remote._client r) sent = (res, Remote._client r, sent') ->
  Remote.on_client m r sent = (res, r, sent').
Proof. intros H. unfold Remote.on_client. rewrite H. now destruct r. Qed.

Lemma keeps_remote_on_client {A} (m : io NaimClient A) :
  keeps m -> keeps (Remote.on_client m).
Proof.
  intros Hm r sent. destruct (Hm (Remote._client r) sent) as (res & extra & H).
  exists res, extra. now apply remote_run_on_client.
Qed.

(** Solves [keeps m] for a method of the remote. *)
Ltac keeps_remote :=
  repeat first
    [ apply keeps_ret
    | apply keeps_lift
    | apply keeps_remote_on_client;
      unfold get_status, get_power_state, get_volume, power_on, power_off,
        volume_up, volume_down, mute, unmute, set_source, play, pause, stop,
        next_track, previous_track, set_balance, get_volume;
      keeps_auto
    | apply keeps_bind; [|intros ?]
    | match goal with
      | |- keeps (if ?b then _ else _) => destruct b
      | |- keeps (match ?x with _ => _ end) => destruct x
      end ].

Lemma keeps_simple_command_body dev command :
  keeps (Remote.simple_command_body dev command).
Proof. unfold Remote.simple_command_body. keeps_remote. Qed.

(** A handler that returns a value turns a method that keeps its object
    into one that also never raises. *)
Lemma handled_returns {S A} (m : io S A) (a : A) :
  keeps m ->
  forall self sent,
    exists b extra, try_except m (ret a) self sent = (Ok b, self, (sent ++ extra)%list).
Proof.
  intros Hm self sent. unfold try_except.
  destruct (Hm self sent) as ([b|e] & extra & ->).
  - now exists b, extra.
  - now exists a, extra.
Qed.

Lemma handle_simple_command_returns dev command r sent :
  exists b extra,
    Remote._handle_simple_command dev command r sent
    = (Ok b, r, (sent ++ extra)%list).
Proof. apply handled_returns, keeps_simple_command_body. Qed.

(** X13. Neither entry point of the remote raises, whatever the command, its
    parameters and the answers of the device: [_handle_simple_command]
    returns a boolean and [command_handler] a status code.  Both leave
    the remote object as it was and only add to the log of requests. *)
Theorem remote_commands_never_raise dev r sent :
  (forall command, exists success extra,
      Remote._handle_simple_command dev command r sent
      = (Ok success, r, (sent ++ extra)%list))
  /\ (forall cmd_id params, exists code extra,
      Remote.command_handler dev cmd_id params r sent
      = (Ok code, r, (sent ++ extra)%list)).
Proof.
  split; [intros; apply handle_simple_command_returns|].
  intros cmd_id params. unfold Remote.command_handler.
  apply handled_returns.
  assert (Hh : forall command,
             keeps (success <- Remote._handle_simple_command dev command ;;
                    ret (Remote.status_of success))).
  { intros command. apply keeps_bind; [|intros; apply keeps_ret].
    apply keeps_try_except; [apply keeps_simple_command_body | apply keeps_ret]. }
  destruct (String.eqb cmd_id Remote.SEND_CMD); [|apply Hh].
  apply keeps_bind.
  - destruct (truthy params); [apply keeps_lift | apply keeps_ret].
  - intros has_command. destruct (negb has_command); [apply keeps_ret|].
    apply keeps_bind; [apply keeps_lift|]. intros command. apply Hh.
Qed.

(** *** The remote without a session *)

Lemma set_source_no_session dev source c sent :
  _session c = false ->
  exists res, set_source dev source c sent = (res, c, sent) /\ res <> Ok true.
Proof.
  intros H. unfold set_source, bind at 1, read at 1.
  unfold bind at 1, lift at 1.
  destruct (iter (_available_inputs c)) as [inputs|e]; [|now eexists].
  now apply set_source_loop_no_session.
Qed.

(** A client method that sends nothing and does not report success,
    called from [_handle_simple_command]. *)
Lemma handled_failure (m : io NaimClient bool) r sent :
  (exists res, m (Remote._client r) sent = (res, Remote._client r, sent)
               /\ res <> Ok true) ->
  try_except (Remote.on_client m) (ret false) r sent = (Ok false, r, sent).
Proof.
  intros (res & H & Hres). unfold try_except.
  rewrite (remote_run_on_client _ _ _ _ _ H).
  destruct res as [[|]|e]; [congruence | reflexivity | reflexivity].
Qed.

Lemma handled_false (m : io NaimClient bool) r sent :
  m (Remote._client r) sent = (Ok false, Remote._client r, sent) ->
  try_except (Remote.on_client m) (ret false) r sent = (Ok false, r, sent).
Proof. intros H. apply handled_failure. exists (Ok false). split; [exact H | discriminate]. Qed.

(** Solves a branch of [_handle_simple_command] on a client without a
    session. *)
Ltac no_session_branch H :=
  first
    [ apply handled_false;
      first [ now apply one_request_command_no_session
            | now apply volume_up_no_session
            | now apply volume_down_no_session
            | reflexivity ]
    | apply handled_failure; now apply set_source_no_session ].

Lemma simple_command_no_session dev command r sent :
  _session (Remote._client r) = false ->
  Remote._handle_simple_command dev command r sent
  = (Ok (existsb (eq_str command) Remote.navigation_commands), r, sent).
Proof.
  intros H. unfold Remote._handle_simple_command, Remote.simple_command_body.
  repeat lazymatch goal with
  | |- try_except (if eq_str ?c ?s then _ else _) _ _ _ = _ =>
      let E := fresh "E" in
      destruct (eq_str c s) eqn:E;
      [ apply eq_str_true in E; subst c;
        match goal with
        | |- _ = (Ok ?b, _, _) =>
            let v := eval vm_compute in b in change b with v
        end
      | ]
  end.
  all: try (no_session_branch H).
  - (* POWER_TOGGLE *)
    unfold try_except, bind at 1.
    rewrite (remote_run_on_client _ _ _ _ _
               (get_power_state_no_session dev _ sent H)).
    cbv beta iota.
    now rewrite (remote_run_on_client (power_on dev) r sent (Ok false) sent
                   (one_request_command_no_session dev _ _ _ sent H)).
  - (* MUTE_TOGGLE *)
    unfold try_except, bind at 1.
    rewrite (remote_run_on_client (get_volume dev) r sent (Ok VNone) sent
               (request_no_session dev _ _ _ _ sent H)).
    cbv beta iota. cbn [truthy]. unfold bind at 1, ret at 1. cbv beta iota.
    now rewrite (remote_run_on_client (mute dev) r sent (Ok false) sent
                   (one_request_command_no_session dev _ _ _ sent H)).
  - (* PLAY_PAUSE *)
    unfold try_except, bind at 1.
    rewrite (remote_run_on_client (get_status dev) r sent (Ok VNone) sent
               (request_no_session dev _ _ _ _ sent H)).
    cbv beta iota. cbn [truthy]. unfold bind at 1, ret at 1. cbv beta iota.
    now rewrite (remote_run_on_client (play dev) r sent (Ok false) sent
                   (one_request_command_no_session dev _ _ _ sent H)).
  - (* the navigation commands and the rest *)
    destruct (existsb (eq_str command) Remote.navigation_commands);
      [reflexivity|].
    repeat lazymatch goal with
    | |- try_except (if eq_str ?c ?s then _ else _) _ _ _ = _ =>
        let E := fresh "E" in
        destruct (eq_str c s) eqn:E; [ | ]
    end.
    all: try (no_session_branch H).
    reflexivity.
Qed.

(** X14. While the client of the remote holds no session (before the first
    [connect], after a [disconnect]) a command sends nothing and changes
    nothing, and it reports success exactly for the eight navigation
    commands: every other command, known or not, returns [False]. *)
Theorem remote_without_session_sends_nothing dev command r sent :
  _session (Remote._client r) = false ->
  Remote._handle_simple_command dev command r sent
  = (Ok (existsb (eq_str command) Remote.navigation_commands), r, sent).
Proof. apply simple_command_no_session. Qed.

Lemma remote_without_session_sends_nothing_witness :
  Remote._handle_simple_command Samples.dev_accepting (VStr "SOURCE_HDMI")
    (Remote.init Samples.address 15081) []
  = (Ok false, Remote.init Samples.address 15081, [])
  /\ Remote._handle_simple_command Samples.dev_accepting (VStr "PAGE_UP")
       (Remote.init Samples.address 15081) []
     = (Ok true, Remote.init Samples.address 15081, []).
Proof.
  split.
  - apply (remote_without_session_sends_nothing Samples.dev_accepting
             (VStr "SOURCE_HDMI") (Remote.init Samples.address 15081) []).
    reflexivity.
  - apply (remote_without_session_sends_nothing Samples.dev_accepting
             (VStr "PAGE_UP") (Remote.init Samples.address 15081) []).
    reflexivity.
Defined.

(** *** Commands sent through [send_cmd] *)

(** A command that is not a string is no known command. *)
Lemma simple_command_not_a_string dev command r sent :
  (forall s, command <> VStr s) ->
  Remote._handle_simple_command dev command r sent = (Ok false, r, sent).
Proof.
  intros H. destruct command; try reflexivity. now destruct (H s).
Qed.

(** X15. [command_handler] on [send_cmd] with a dict of parameters: without
    the key [command] the answer is [BAD_REQUEST]; a named command other
    than [send_cmd] itself runs as if it had been given as the command
    id, whatever the other parameters; [send_cmd] inside [send_cmd] and
    a command that is not a string are answered with [SERVER_ERROR].
    Nothing is sent in the cases that do not run a command, and
    parameters that are [None] are a [BAD_REQUEST] as well. *)
Theorem send_cmd_runs_the_named_command dev d params r sent :
  Remote.command_handler dev Remote.SEND_CMD (VDict d) r sent
  = match d !! "command" with
    | None => (Ok Remote.StatusCodes.BAD_REQUEST, r, sent)
    | Some (VStr x) =>
        if String.eqb x Remote.SEND_CMD
        then (Ok Remote.StatusCodes.SERVER_ERROR, r, sent)
        else Remote.command_handler dev x params r sent
    | Some _ => (Ok Remote.StatusCodes.SERVER_ERROR, r, sent)
    end
  /\ Remote.command_handler dev Remote.SEND_CMD VNone r sent
     = (Ok Remote.StatusCodes.BAD_REQUEST, r, sent).
Proof.
  split; [|reflexivity].
  unfold Remote.command_handler at 1.
  change (String.eqb Remote.SEND_CMD Remote.SEND_CMD) with true. cbv iota.
  destruct (d !! "command") as [v|] eqn:Hv.
  - rewrite (truthy_dict_with_key d "command" v Hv).
    unfold try_except, bind at 1, lift at 1, contains.
    rewrite Hv. rewrite bool_decide_eq_true_2 by eauto.
    cbn [negb]. cbv beta iota. unfold bind at 1, lift at 1, getitem.
    rewrite Hv. cbv beta iota.
    assert (Hother : (forall s, v <> VStr s) ->
              match
                (success <- Remote._handle_simple_command dev v ;;
                 ret (Remote.status_of success)) r sent
              with
              | (Ok a, self', sent') => (Ok a, self', sent')
              | (Raise _, self', sent') =>
                  ret Remote.StatusCodes.SERVER_ERROR self' sent'
              end = (Ok Remote.StatusCodes.SERVER_ERROR, r, sent)).
    { intros Hs. unfold bind.
      now rewrite (simple_command_not_a_string dev v r sent Hs). }
    destruct v as [| | |x| |]; try (apply Hother; discriminate).
    destruct (String.eqb x Remote.SEND_CMD) eqn:Hx.
    + apply String.eqb_eq in Hx. subst x. reflexivity.
    + unfold Remote.command_handler. rewrite Hx. reflexivity.
  - unfold try_except, bind at 1.
    destruct (truthy (VDict d)).
    + unfold lift, contains. rewrite Hv.
      rewrite bool_decide_eq_false_2 by (intros [? ?]; discriminate).
      reflexivity.
    + reflexivity.
Qed.

(** *** Connecting and disconnecting the remote *)

Lemma wp_remote_on_client {A} (m : io NaimClient A) (r : Remote.NaimRemote) sent Q :
  wp m (Remote._client r) sent
     (fun res c sent' => Q res (Remote.set_client c r) sent') ->
  wp (Remote.on_client m) r sent Q.
Proof.
  unfold wp, Remote.on_client.
  destruct (m (Remote._client r) sent) as [[res c] sent']. exact (fun H => H).
Qed.

(** X16. [connect] of the remote never raises.  When it returns [True] the
    remote is connected: its own flag and the flag of the client are
    set.  When it returns [False] both flags are as before, so a remote
    that was connected keeps saying so after a failed reconnection.  The
    requests it adds to the log are GETs. *)
Theorem remote_connect_sets_both_flags dev r sent :
  exists success r' extra,
    Remote.connect dev r sent = (Ok success, r', (sent ++ extra)%list)
    /\ Forall (fun q => req_method q = GET) extra
    /\ (success = true -> Remote.is_connected r' = true)
    /\ (success = false -> Remote.is_connected r' = Remote.is_connected r).
Proof.
  assert (H : wp (Remote.connect dev) r sent
                (fun res r' sent' =>
                   exists success extra,
                     res = Ok success /\ sent' = (sent ++ extra)%list
                     /\ Forall (fun q => req_method q = GET) extra
                     /\ (success = true -> Remote.is_connected r' = true)
                     /\ (success = false
                         -> Remote.is_connected r' = Remote.is_connected r))).
  { unfold Remote.connect. apply wp_bind, wp_remote_on_client.
    eapply wp_consequence; [apply wp_connect|].
    intros res c' sent' (b & n & -> & _ & Hon & Hoff & Hinv).
    destruct Hinv as (_ & _ & _ & _ & _ & _ & extra & -> & Hget & _).
    destruct b.
    - apply wp_bind, wp_modify, wp_ret.
      exists true, extra. repeat split; try assumption; try discriminate.
      intros _. unfold Remote.is_connected. cbn.
      now destruct (Hon eq_refl) as [_ ->].
    - apply wp_bind, wp_ret, wp_ret.
      exists false, extra. repeat split; try assumption; try discriminate.
      intros _. unfold Remote.is_connected. cbn. now rewrite (Hoff eq_refl). }
  destruct (wp_run _ _ _ _ H)
    as (res & r' & sent' & Hrun & success & extra & -> & -> & Hrest).
  now exists success, r', extra.
Qed.

(** X17. [disconnect] of the remote sends nothing and leaves a remote that is
    not connected and whose commands reach no device: after it every
    command returns without a request, [True] for the navigation
    commands only. *)
Theorem remote_disconnect_silences_commands dev r sent :
  exists r',
    Remote.disconnect r sent = (Ok tt, r', sent)
    /\ Remote.is_connected r' = false
    /\ forall command sent',
         Remote._handle_simple_command dev command r' sent'
         = (Ok (existsb (eq_str command) Remote.navigation_commands), r', sent').
Proof.
  eexists. split; [reflexivity|]. split; [reflexivity|].
  intros command sent'. now apply simple_command_no_session.
Qed.

(** *** Monitoring of the media player entity *)

Lemma wp_entity_on_player {A} (m : io NaimMediaPlayer A) (e : Entity.t) sent Q :
  wp m (Entity.player e) sent
     (fun res p sent' => Q res (Entity.set_player p e) sent') ->
  wp (Entity.on_player m) e sent Q.
Proof.
  unfold wp, Entity.on_player.
  destruct (m (Entity.player e) sent) as [[res p] sent']. exact (fun H => H).
Qed.

Lemma wp_result {S A} (m : io S A) (self : S) sent Q :
  wp m self sent Q -> Q (m self sent).1.1 (m self sent).1.2 (m self sent).2.
Proof. unfold wp. now destruct (m self sent) as [[r self'] sent']. Qed.

(** What a status refresh does, whatever the device answers. *)
Lemma wp_update_status dev p sent :
  wp (update_status dev) p sent
     (fun res p' sent' =>
        res = Ok tt
        /\ MediaPlayer._client p' = MediaPlayer._client p
        /\ MediaPlayer._connected p' = MediaPlayer._connected p
        /\ (MediaPlayer._connected p = false -> p' = p /\ sent' = sent)
        /\ exists extra,
             sent' = (sent ++ extra)%list
             /\ Forall (fun q => req_method q = GET) extra).
Proof.
  assert (Hget : forall k,
            Forall (fun q => req_method q = GET)
                   (take k (refresh_requests (MediaPlayer._client p)))).
  { intros k. apply Forall_take. unfold refresh_requests, sent_by.
    destruct (_session _); simpl; repeat constructor. }
  unfold update_status. apply wp_bind, wp_read.
  destruct (MediaPlayer._connected p) eqn:Hc; cbn [negb].
  - apply wp_try_except.
    eapply wp_consequence; [apply update_status_body_reads|].
    intros [[]|x] p' sent' (H1 & H2 & k & ->).
    + repeat split; try congruence. eauto.
    + apply wp_modify. cbn [set_attr_state MediaPlayer._client MediaPlayer._connected].
      repeat split; try congruence. eauto.
  - apply wp_ret. repeat split; try congruence.
    exists []. now rewrite app_nil_r.
Qed.

(** [get_sources] sends nothing, and the list it returns is not empty. *)
Lemma get_sources_runs c sent :
  exists rs,
    get_sources c sent = (rs, c, sent) /\ forall l, rs = Ok l -> l <> [].
Proof.
  unfold get_sources, bind, read, lift, ret.
  destruct (iter (_available_inputs c)) as [inputs|x].
  - destruct (get_sources_loop [] inputs) as [[|s l']|x]; eexists;
      (split; [reflexivity|]); intros l Hl; try discriminate Hl;
      injection Hl as <-; discriminate.
  - eexists. split; [reflexivity|]. discriminate.
Qed.

Lemma wp_get_sources c sent Q :
  (forall rs, (forall l, rs = Ok l -> l <> []) -> Q rs c sent) ->
  wp get_sources c sent Q.
Proof.
  intros H. unfold wp. destruct (get_sources_runs c sent) as (rs & -> & Hne).
  now apply H.
Qed.

(** What [connect] of the entity does to the fields of the entity. *)
Lemma wp_entity_connect dev e sent :
  wp (Entity.connect dev) e sent
     (fun res e' sent' =>
        Entity._monitoring e' = Entity._monitoring e
        /\ Entity._update_task e' = Entity._update_task e
        /\ (exists extra,
              sent' = (sent ++ extra)%list
              /\ Forall (fun q => req_method q = GET) extra)
        /\ match res with
           | Ok true =>
               Entity.is_connected e' = true
               /\ Entity._attr_source_list e' <> []
           | Ok false =>
               Entity.is_connected e' = Entity.is_connected e
               /\ MediaPlayer._connected (Entity.player e')
                  = MediaPlayer._connected (Entity.player e)
               /\ Entity._attr_source_list e' = Entity._attr_source_list e
               /\ MediaPlayer.set_client (MediaPlayer._client (Entity.player e))
                    (Entity.player e')
                  = Entity.player e
           | Raise _ =>
               Entity.is_connected e' = true
               /\ Entity._attr_source_list e' = Entity._attr_source_list e
           end).
Proof.
  unfold Entity.connect.
  apply wp_bind, wp_entity_on_player, wp_on_client.
  eapply wp_consequence; [apply wp_connect|].
  intros res c' sent' (b & n & -> & _ & Hon & Hoff & Hinv).
  destruct Hinv as (_ & _ & _ & _ & _ & _ & extra & -> & Hget & _).
  destruct b.
  - destruct (Hon eq_refl) as [_ Hconn].
    apply wp_bind, wp_bind, wp_entity_on_player, wp_modify.
    apply wp_bind, wp_entity_on_player, wp_on_client.
    apply wp_get_sources. intros rs Hne.
    destruct rs as [sources|x]; cbv beta iota.
    + apply wp_bind, wp_modify, wp_entity_on_player.
      eapply wp_consequence; [apply wp_update_status|].
      intros res p' sent' (-> & Hcl & Hco & _ & extra3 & -> & Hget3).
      apply wp_ret. split; [reflexivity|]. split; [reflexivity|]. split.
      { exists (extra ++ extra3)%list. rewrite app_assoc. split; [reflexivity|].
        now apply Forall_app. }
      split.
      * unfold Entity.is_connected. cbn. rewrite Hcl, Hco. cbn. now rewrite Hconn.
      * cbn. now apply Hne.
    + split; [reflexivity|]. split; [reflexivity|]. split; [eauto|].
      split; [|reflexivity].
      unfold Entity.is_connected. cbn. now rewrite Hconn.
  - apply wp_bind, wp_ret, wp_ret.
    split; [reflexivity|]. split; [reflexivity|]. split; [eauto|].
    split; [|split; [reflexivity|split; [reflexivity|]]].
    + unfold Entity.is_connected. cbn. now rewrite (Hoff eq_refl).
    + cbn. now destruct (Entity.player e).
Qed.

(** X18. [connect] of the entity never changes the monitoring fields and
    sends GETs only.  When it returns [True] the entity is connected and
    its source list is not empty; when it returns [False] the connected
    flag, the source list and every attribute are as before.  It can
    raise, from [get_sources]: the entity is then already marked
    connected and the source list is the old one. *)
Theorem entity_connect_outcome dev e sent :
  exists res e' extra,
    Entity.connect dev e sent = (res, e', (sent ++ extra)%list)
    /\ Forall (fun q => req_method q = GET) extra
    /\ Entity._monitoring e' = Entity._monitoring e
    /\ Entity._update_task e' = Entity._update_task e
    /\ match res with
       | Ok true =>
           Entity.is_connected e' = true
           /\ Entity._attr_source_list e' <> []
       | Ok false =>
           Entity.is_connected e' = Entity.is_connected e
           /\ MediaPlayer._connected (Entity.player e')
              = MediaPlayer._connected (Entity.player e)
           /\ Entity._attr_source_list e' = Entity._attr_source_list e
           /\ MediaPlayer.set_client (MediaPlayer._client (Entity.player e))
                (Entity.player e')
              = Entity.player e
       | Raise _ =>
           Entity.is_connected e' = true
           /\ Entity._attr_source_list e' = Entity._attr_source_list e
       end.
Proof.
  destruct (wp_run _ _ _ _ (wp_entity_connect dev e sent))
    as (res & e' & sent' & Hrun & Hm & Ht & (extra & -> & Hget) & Hres).
  now exists res, e', extra.
Qed.

(** X19. When the client connects and the first input it has cached is not
    an object, [connect] of the entity raises [AttributeError] out of
    [get_sources]: no handler is around it.  The entity is left marked
    connected, with the source list it had and without a status
    refresh. *)
Theorem entity_connect_raises_on_flat_input dev e sent c' sent' x rest :
  Client.connect dev (MediaPlayer._client (Entity.player e)) sent
  = (Ok true, c', sent') ->
  _available_inputs c' = VList (x :: rest) ->
  (forall d, x <> VDict d) ->
  Entity.connect dev e sent
  = (Raise AttributeError,
     Entity.set_player
       (MediaPlayer.set_connected true
          (MediaPlayer.set_client c' (Entity.player e))) e,
     sent').
Proof.
  intros Hc Hin Hx.
  assert (Hs : get_sources c' sent' = (Raise AttributeError, c', sent')).
  { unfold get_sources, bind, read, lift. rewrite Hin. cbn [iter].
    cbn [get_sources_loop]. unfold source_of_input.
    destruct x as [| | | | |d]; try reflexivity. now destruct (Hx d). }
  unfold Entity.connect, bind at 1, Entity.on_player at 1,
    MediaPlayer.on_client at 1.
  rewrite Hc. cbv beta iota.
  unfold bind at 1, bind at 1, Entity.on_player at 1, modify at 1.
  cbv beta iota.
  unfold bind at 1, Entity.on_player at 1, MediaPlayer.on_client at 1.
  cbn [Entity.player Entity.set_player MediaPlayer._client
       MediaPlayer.set_connected MediaPlayer.set_client].
  rewrite Hs. cbv beta iota.
  cbn [Entity.player Entity.set_player MediaPlayer._client
       MediaPlayer.set_connected MediaPlayer.set_client
       Entity._attr_source_list Entity._monitoring Entity._update_task].
  destruct e as [[] ? ? ?]. reflexivity.
Qed.

Lemma entity_connect_raises_on_flat_input_witness :
  exists e',
    Entity.connect MoreSamples.dev_flat_inputs
      (Entity.init Samples.address 15081) []
    = (Raise AttributeError, e',
       [mkRequest GET "http://192.168.1.50:15081/" None;
        mkRequest GET "http://192.168.1.50:15081/system" None;
        mkRequest GET "http://192.168.1.50:15081/inputs" None])
    /\ Entity.is_connected e' = true
    /\ Entity._attr_source_list e' = [].
Proof.
  eexists. split.
  - eapply (entity_connect_raises_on_flat_input MoreSamples.dev_flat_inputs
              (Entity.init Samples.address 15081) [] _ _ (VStr "ana1") []).
    + vm_compute. reflexivity.
    + reflexivity.
    + discriminate.
  - split; reflexivity.
Defined.

(** *** The monitoring flag and the update task *)

Lemma stop_monitoring_fields e :
  Entity._monitoring (Entity.stop_monitoring e) = false
  /\ Entity.player (Entity.stop_monitoring e) = Entity.player e
  /\ Entity._attr_source_list (Entity.stop_monitoring e)
     = Entity._attr_source_list e
  /\ (Entity.monitoring_ok e ->
      Entity._update_task (Entity.stop_monitoring e) <> Some false).
Proof.
  unfold Entity.stop_monitoring, Entity.monitoring_ok.
  destruct e as [p l m [[|]|]]; destruct m; cbn;
    repeat split; try discriminate; intros [_ H] H'; now specialize (H H').
Qed.

Lemma start_monitoring_fields e :
  Entity.player (Entity.start_monitoring e) = Entity.player e
  /\ Entity._attr_source_list (Entity.start_monitoring e)
     = Entity._attr_source_list e.
Proof.
  unfold Entity.start_monitoring, Entity.no_running_task.
  destruct e as [p l m [[|]|]]; destruct m, (MediaPlayer._connected p) eqn:E;
    cbn; rewrite ?E; cbn; now split.
Qed.

Lemma monitoring_ok_start e :
  Entity.monitoring_ok e -> Entity.monitoring_ok (Entity.start_monitoring e).
Proof.
  unfold Entity.start_monitoring, Entity.no_running_task, Entity.monitoring_ok.
  destruct e as [p l m [[|]|]]; destruct m, (MediaPlayer._connected p) eqn:E;
    cbn; rewrite ?E; cbn; intuition congruence.
Qed.

Lemma monitoring_ok_stop e :
  Entity.monitoring_ok e -> Entity.monitoring_ok (Entity.stop_monitoring e).
Proof.
  intros H. destruct (stop_monitoring_fields e) as (Hm & _ & _ & Ht).
  split; intros H'; [congruence | now destruct (Ht H)].
Qed.

(** X20. The monitoring fields stay in agreement: while the entity monitors
    it is marked connected and holds an update task, and an update task
    that is not done exists only while the entity monitors.  This holds
    of a new entity, and [start_monitoring], [stop_monitoring],
    [connect], [disconnect] and [update_status] keep it true of an
    entity of which it holds. *)
Theorem monitoring_fields_agree dev address port e sent :
  Entity.monitoring_ok e ->
  Entity.monitoring_ok (Entity.init address port)
  /\ Entity.monitoring_ok (Entity.start_monitoring e)
  /\ Entity.monitoring_ok (Entity.stop_monitoring e)
  /\ Entity.monitoring_ok (Entity.connect dev e sent).1.2
  /\ Entity.monitoring_ok (Entity.disconnect e sent).1.2
  /\ Entity.monitoring_ok (Entity.on_player (update_status dev) e sent).1.2.
Proof.
  intros H.
  split; [split; discriminate|].
  split; [now apply monitoring_ok_start|].
  split; [now apply monitoring_ok_stop|].
  split; [|split].
  - pose proof (wp_result _ _ _ _ (wp_entity_connect dev e sent)) as Hc.
    cbv beta in Hc. destruct Hc as (Hm & Ht & _ & Hres).
    destruct H as [H1 H2]. split.
    + rewrite Hm, Ht. intros Hmon. split; [|now apply H1].
      destruct ((Entity.connect dev e sent).1.1) as [[|]|x].
      * destruct Hres as [Hres _]. unfold Entity.is_connected in Hres.
        now apply andb_true_iff in Hres.
      * destruct Hres as (_ & -> & _). now apply H1.
      * destruct Hres as [Hres _]. unfold Entity.is_connected in Hres.
        now apply andb_true_iff in Hres.
    + now rewrite Hm, Ht.
  - destruct (stop_monitoring_fields e) as (Hm & _ & _ & Ht).
    unfold Entity.disconnect, bind, modify, Entity.on_player, Client.disconnect,
      MediaPlayer.on_client, Entity.monitoring_ok.
    cbn. rewrite Hm. split; [discriminate|]. intros H'. now destruct (Ht H).
  - pose proof (wp_result _ _ _ _ (wp_update_status dev (Entity.player e) sent))
      as Hu.
    cbv beta in Hu. destruct Hu as (_ & _ & Hco & _).
    unfold Entity.on_player.
    destruct (update_status dev (Entity.player e) sent) as [[r p'] sent'].
    cbn in Hco |- *. unfold Entity.monitoring_ok. cbn. now rewrite Hco.
Qed.

Lemma monitoring_fields_agree_witness :
  Entity.monitoring_ok
    (Entity.stop_monitoring
       (Entity.start_monitoring
          (Entity.set_player Samples.player
             (Entity.init Samples.address 15081)))).
Proof.
  apply (monitoring_fields_agree Samples.dev_accepting Samples.address 15081
           (Entity.start_monitoring
              (Entity.set_player Samples.player
                 (Entity.init Samples.address 15081))) []).
  split; [intros _; split; [reflexivity | discriminate] | reflexivity].
Defined.

(** X21. Starting and stopping.  On an entity whose monitoring fields agree:
    [start_monitoring] of a connected entity leaves it monitoring with
    an update task, a new one that is not done when it was not
    monitoring before; on an entity that is not connected it does
    nothing.  [stop_monitoring] leaves it not monitoring with no task
    that still runs.  Each of the two done twice is the same as done
    once, and neither touches the attributes or the source list. *)
Theorem monitoring_starts_and_stops e :
  Entity.monitoring_ok e ->
  (MediaPlayer._connected (Entity.player e) = true ->
   Entity._monitoring (Entity.start_monitoring e) = true
   /\ Entity._update_task (Entity.start_monitoring e) <> None
   /\ (Entity._monitoring e = false ->
       Entity._update_task (Entity.start_monitoring e) = Some false))
  /\ (MediaPlayer._connected (Entity.player e) = false ->
      Entity.start_monitoring e = e)
  /\ Entity._monitoring (Entity.stop_monitoring e) = false
  /\ Entity._update_task (Entity.stop_monitoring e) <> Some false
  /\ Entity.start_monitoring (Entity.start_monitoring e)
     = Entity.start_monitoring e
  /\ Entity.stop_monitoring (Entity.stop_monitoring e)
     = Entity.stop_monitoring e
  /\ Entity.player (Entity.start_monitoring e) = Entity.player e
  /\ Entity.player (Entity.stop_monitoring e) = Entity.player e
  /\ Entity._attr_source_list (Entity.start_monitoring e)
     = Entity._attr_source_list e
  /\ Entity._attr_source_list (Entity.stop_monitoring e)
     = Entity._attr_source_list e.
Proof.
  unfold Entity.monitoring_ok, Entity.start_monitoring,
    Entity.stop_monitoring, Entity.no_running_task.
  destruct e as [p l m [[|]|]];
    destruct m, (MediaPlayer._connected p) eqn:E;
    cbn; rewrite ?E; cbn; rewrite ?E; cbn; intuition congruence.
Qed.

Lemma monitoring_starts_and_stops_witness :
  Entity._update_task
    (Entity.start_monitoring
       (Entity.set_player Samples.player (Entity.init Samples.address 15081)))
  = Some false.
Proof.
  apply (monitoring_starts_and_stops
           (Entity.set_player Samples.player (Entity.init Samples.address 15081))).
  - split; discriminate.
  - reflexivity.
  - reflexivity.
Defined.

(** X22. [disconnect] of the entity sends nothing and never raises.  After
    it the entity is not connected and not monitoring, the client has
    no session, [start_monitoring] and a status refresh do nothing, and
    the attributes still show what they showed before: the state is
    not set to UNAVAILABLE. *)
Theorem entity_disconnect_stops_everything dev e sent :
  exists e',
    Entity.disconnect e sent = (Ok tt, e', sent)
    /\ Entity.is_connected e' = false
    /\ Entity._monitoring e' = false
    /\ _session (MediaPlayer._client (Entity.player e')) = false
    /\ Entity.start_monitoring e' = e'
    /\ (forall sent',
          Entity.on_player (update_status dev) e' sent' = (Ok tt, e', sent'))
    /\ _attr_state (Entity.player e') = _attr_state (Entity.player e)
    /\ _attr_volume (Entity.player e') = _attr_volume (Entity.player e)
    /\ _attr_source (Entity.player e') = _attr_source (Entity.player e)
    /\ Entity._attr_source_list e' = Entity._attr_source_list e.
Proof.
  destruct (stop_monitoring_fields e) as (Hm & Hp & Hl & _).
  eexists. split; [reflexivity|].
  cbn. rewrite Hm, Hp, Hl. repeat split.
Qed.
